(** * kubectx: argument resolution and the context/namespace switch engines

    A shallow embedding of [cmd/kubectx/flags.go] and [cmd/kubectx/switch.go].

    - Go strings are [string]; [[]string] is [list string]; Go [int] is [Z].
    - A Go [error] is a tree of messages ([errors.New]/[Errorf], [errors.Wrap])
      over the error values handed back by the operating system, the
      Kubernetes API and the kubeconfig package.
    - A run-time panic (index or slice bound out of range) is [None] in the
      [option] monad; functions that touch the outside world live in the
      state monad [M] over [World]. *)

From stdpp Require Import gmap strings list.
From Stdlib Require Import ZArith String Ascii Bool Lia.

Open Scope string_scope.
Open Scope Z_scope.

(** ** Go errors *)

(** Error values produced outside this package. *)
Inductive foreign :=
| ENOENT            (* os: file does not exist ([os.IsNotExist]) *)
| EOTHER            (* os: any other I/O error *)
| ApiNotFound       (* k8s API status: not found ([errors2.IsNotFound]) *)
| ApiOther          (* k8s API: any other failure *)
| Collaborator (what : string). (* error from a package that is not modelled *)

Inductive error :=
| Errorf (msg : string)                 (* errors.New, errors.Errorf, fmt.Errorf *)
| Wrap (cause : error) (msg : string)   (* errors.Wrap(cause, msg) *)
| Foreign (e : foreign).

Inductive result (A : Type) :=
| Ok (a : A)
| Err (e : error).
Arguments Ok {A} a.
Arguments Err {A} e.

(** The double quote character, for messages such as [no context exists with
    the name: "x"]. *)
Definition dq : string := String "034"%char EmptyString.

Definition os_IsNotExist (e : error) : bool :=
  match e with Foreign ENOENT => true | _ => false end.

Definition errors2_IsNotFound (e : option error) : bool :=
  match e with Some (Foreign ApiNotFound) => true | _ => false end.

(** ** Operations (the [Op] implementations of package main) *)

Inductive Op :=
| InteractiveSwitchOp (SelfCmd : string)
| InteractiveDeleteOp (SelfCmd : string)
| ListOp
| HelpOp
| VersionOp
| CurrentOp
| UnsetOp
| DeleteOp (Contexts : list string)
| RenameOp (New Old : string)
| SwitchOp (Target Namespace : string)
| UnsupportedOp (Err : error).

(** The variant of an operation, its payload forgotten. *)
Inductive Variant :=
| VInteractiveSwitch | VInteractiveDelete | VList | VHelp | VVersion
| VCurrent | VUnset | VDelete | VRename | VSwitch | VUnsupported.

Definition variant (op : Op) : Variant :=
  match op with
  | InteractiveSwitchOp _ => VInteractiveSwitch
  | InteractiveDeleteOp _ => VInteractiveDelete
  | ListOp => VList
  | HelpOp => VHelp
  | VersionOp => VVersion
  | CurrentOp => VCurrent
  | UnsetOp => VUnset
  | DeleteOp _ => VDelete
  | RenameOp _ _ => VRename
  | SwitchOp _ _ => VSwitch
  | UnsupportedOp _ => VUnsupported
  end.

(** ** Slices with Go's bounds checks *)

Definition len {A} (l : list A) : Z := Z.of_nat (List.length l).

(** [l[i]]; [None] is the index-out-of-range panic. *)
Definition at_index {A} (l : list A) (i : Z) : option A :=
  if (0 <=? i) && (i <? len l) then l !! Z.to_nat i else None.

(** [l[lo:hi]]; [None] is the slice-bounds panic. *)
Definition slice {A} (l : list A) (lo hi : Z) : option (list A) :=
  if (0 <=? lo) && (lo <=? hi) && (hi <=? len l)
  then Some (take (Z.to_nat (hi - lo)) (drop (Z.to_nat lo) l))
  else None.

(** Sequencing of computations that may panic. *)
Notation "x <-? e ;; k" :=
  (match e with Some x => k | None => None end)
  (at level 100, e at next level, k at level 200, right associativity,
   format "'[v' x  <-?  e  ;;  '/' k ']'").

(** ** Rename syntax *)

Fixpoint splitFirstEq (s : string) : option (string * string) :=
  match s with
  | EmptyString => None
  | String c rest =>
      if Ascii.eqb c "="%char then Some (EmptyString, rest)
      else match splitFirstEq rest with
           | Some (l, r) => Some (String c l, r)
           | None => None
           end
  end.

Fixpoint containsEq (s : string) : bool :=
  match s with
  | EmptyString => false
  | String c rest => Ascii.eqb c "="%char || containsEq rest
  end.

(** Modelled from the spec: [parseRenameSyntax], whose file
    (cmd/kubectx/rename.go) is not among the sources.  The spec gives the
    token form [NEW=OLD], split on the first [=], with non-empty NEW,
    non-empty OLD and exactly one [=]; anything else is not a rename. *)
Definition parseRenameSyntax (v : string) : option (string * string) :=
  match splitFirstEq v with
  | Some (new, old) =>
      if negb (new =? "")%string && negb (old =? "")%string && negb (containsEq old)
      then Some (new, old)
      else None
  | None => None
  end.

(** ** parseArgs (flags.go) *)

(** How the scan for the namespace flag leaves the loop: by the [return] inside
    it, or (by [break] or by exhausting the tokens) with the two variables
    [namespace] and [namespaceIndex]. *)
Inductive scan :=
| Returned (op : Op)
| Scanned (namespace : string) (namespaceIndex : Z).

Definition isNamespaceFlag (a : string) : bool :=
  (a =? "-n")%string || (a =? "--namespace")%string.

(** [for i := 0; i < len(argv); i++ { ... }], started at [i]; [fuel] bounds the
    number of iterations. *)
Fixpoint scanNamespace (argv : list string) (fuel : nat) (i : Z) : option scan :=
  if len argv <=? i then Some (Scanned "" (-1))
  else
    match fuel with
    | O => None
    | S fuel' =>
        a <-? at_index argv i ;;
        if isNamespaceFlag a then
          if len argv <=? i + 1 then
            Some (Returned (UnsupportedOp (Errorf "'-n' requires a namespace argument")))
          else
            v <-? at_index argv (i + 1) ;;
            Some (Scanned v i)
        else scanNamespace argv fuel' (i + 1)
    end.

(** The chain of tests on the single remaining token. *)
Definition classify (v namespace : string) : Op :=
  if (v =? "--help")%string || (v =? "-h")%string then HelpOp
  else if (v =? "--version")%string || (v =? "-V")%string then VersionOp
  else if (v =? "--current")%string || (v =? "-c")%string then CurrentOp
  else if (v =? "--unset")%string || (v =? "-u")%string then UnsetOp
  else
    match parseRenameSyntax v with
    | Some (new, old) => RenameOp new old
    | None =>
        if String.prefix "-" v && negb (v =? "-")%string
        then UnsupportedOp (Errorf ("unsupported option '" ++ v ++ "'"))
        else SwitchOp v namespace
    end.

(** [parseArgs argv].  [interactive] is the answer of
    [cmdutil.IsInteractiveMode(os.Stdout)] and [self] is [os.Args[0]].
    [append(argv[:i], argv[i+2:]...)] writes into the array behind [argv];
    [argv] is not read again and [namespace] was copied out before, so only
    the value of the result, the two slices joined, matters. *)
Definition parseArgs (interactive : bool) (self : string) (argv : list string)
  : option Op :=
  if len argv =? 0 then
    Some (if interactive then InteractiveSwitchOp self else ListOp)
  else
    a0 <-? at_index argv 0 ;;
    if (a0 =? "-d")%string then
      if len argv =? 1 then
        Some (if interactive then InteractiveDeleteOp self
              else UnsupportedOp (Errorf "'-d' needs arguments"))
      else
        rest <-? slice argv 1 (len argv) ;;
        Some (DeleteOp rest)
    else
      s <-? scanNamespace argv (List.length argv) 0 ;;
      match s with
      | Returned op => Some op
      | Scanned namespace namespaceIndex =>
          remainingArgs <-?
            (if 0 <=? namespaceIndex then
               pre <-? slice argv 0 namespaceIndex ;;
               post <-? slice argv (namespaceIndex + 2) (len argv) ;;
               Some (pre ++ post)%list
             else Some argv) ;;
          if len remainingArgs =? 0 then
            if negb (namespace =? "")%string then
              Some (UnsupportedOp
                      (Errorf "context name is required when using -n flag"))
            else Some (if interactive then InteractiveSwitchOp self else ListOp)
          else if len remainingArgs =? 1 then
            v <-? at_index remainingArgs 0 ;;
            Some (classify v namespace)
          else Some (UnsupportedOp (Errorf "too many arguments"))
      end.

(** ** The world outside the process *)

(** Modelled from the spec: the Config Store collaborator (package
    internal/kubeconfig is not among the sources).  A configuration holds the
    active-context pointer (empty when no context is configured) and, for
    every context name, the namespace recorded for it. *)
Record Kubeconfig := mkKubeconfig {
  contexts : gmap string string;
  current_context : string
}.

(** Which calls into collaborators and the operating system fail in a run. *)
Record Faults := mkFaults {
  state_file_fails : bool;      (* kubectxPrevCtxFile *)
  modify_fails : bool;          (* kc.ModifyCurrentContext *)
  set_namespace_fails : bool;   (* kc.SetNamespace *)
  save_fails : bool;            (* kc.Save *)
  bytes_fails : bool;           (* kc.Bytes *)
  read_fails : bool;            (* reading a file that exists *)
  mkdir_fails : bool;           (* os.MkdirAll *)
  write_fails : bool;           (* ioutil.WriteFile *)
  print_fails : bool            (* writing to stderr *)
}.

Definition no_faults : Faults :=
  mkFaults false false false false false false false false false.

(** What building a Kubernetes client from a configuration gives: a rejected
    configuration, no client, or a client whose [Namespaces().Get] answers
    with (whether the returned object is non-nil, the error). *)
Inductive dial :=
| BadConfig (e : error)
| NoClient (e : error)
| Client (get : string -> bool * option error).

Record World := mkWorld {
  goos : string;                              (* runtime.GOOS *)
  environ : gmap string string;               (* the process environment *)
  home_dir : string;                          (* cmdutil.HomeDir() *)
  filepath_Join : list string -> string;      (* path/filepath.Join *)
  filepath_Dir : string -> string;            (* path/filepath.Dir *)
  prev_ctx_path : string;                     (* where the previous context is kept *)
  faults : Faults;
  kubeconfig_file : option Kubeconfig;        (* None: cannot be loaded *)
  files : gmap string string;                 (* regular files, by path *)
  k8s : Kubeconfig -> dial;
  stderr : list string                        (* messages written so far *)
}.

Definition set_kubeconfig_file (kc : Kubeconfig) (w : World) : World :=
  mkWorld (goos w) (environ w) (home_dir w) (filepath_Join w) (filepath_Dir w)
          (prev_ctx_path w) (faults w) (Some kc) (files w) (k8s w) (stderr w).

Definition set_files (fs : gmap string string) (w : World) : World :=
  mkWorld (goos w) (environ w) (home_dir w) (filepath_Join w) (filepath_Dir w)
          (prev_ctx_path w) (faults w) (kubeconfig_file w) fs (k8s w) (stderr w).

Definition set_stderr (out : list string) (w : World) : World :=
  mkWorld (goos w) (environ w) (home_dir w) (filepath_Join w) (filepath_Dir w)
          (prev_ctx_path w) (faults w) (kubeconfig_file w) (files w) (k8s w) out.

(** ** State and error monad *)

Definition State (S A : Type) : Type := S -> result A * S.

Definition ret {S A} (a : A) : State S A := fun s => (Ok a, s).

Definition fail {S A} (e : error) : State S A := fun s => (Err e, s).

Definition bind {S A B} (m : State S A) (k : A -> State S B) : State S B :=
  fun s => match m s with
           | (Ok a, s') => k a s'
           | (Err e, s') => (Err e, s')
           end.

(** [errors.Wrap(err, msg)] applied to the error of [m], a success untouched. *)
Definition wrap {S A} (msg : string) (m : State S A) : State S A :=
  fun s => match m s with
           | (Err e, s') => (Err (Wrap e msg), s')
           | r => r
           end.

Definition gets {S A} (f : S -> A) : State S A := fun s => (Ok (f s), s).

Notation "x <- e ;; k" := (bind e (fun x => k))
  (at level 100, e at next level, k at level 200, right associativity,
   format "'[v' x  <-  e  ;;  '/' k ']'").

(** Code that only sees the world. *)
Definition M (A : Type) : Type := State World A.

(** Code that holds a [*kubeconfig.Kubeconfig]: the pointee is state too. *)
Definition MK (A : Type) : Type := State (Kubeconfig * World) A.

Definition liftW {A} (m : M A) : MK A :=
  fun s => match m (snd s) with (r, w') => (r, (fst s, w')) end.

(** [kc := new(kubeconfig.Kubeconfig).WithLoader(kubeconfig.DefaultLoader);
    defer kc.Close(); ...]: the body runs on a fresh object, dropped at the end. *)
Definition with_kubeconfig {A} (body : MK A) : M A :=
  fun w => match body (mkKubeconfig empty "", w) with (r, s') => (r, snd s') end.

(** *** Config Store methods *)

(** Modelled from the spec: [Load() -> config-or-error] ([kc.Parse]); the
    object takes the saved configuration. *)
Definition kc_Parse : MK unit :=
  fun s => match kubeconfig_file (snd s) with
           | Some kc => (Ok tt, (kc, snd s))
           | None => (Err (Foreign (Collaborator "kubeconfig.Parse")), s)
           end.

(** Modelled from the spec: [CurrentContext() -> name]. *)
Definition kc_GetCurrentContext : MK string :=
  gets (fun s => current_context (fst s)).

(** Modelled from the spec: [ContextExists(name) -> bool]. *)
Definition kc_ContextExists (name : string) : MK bool :=
  gets (fun s => match contexts (fst s) !! name with Some _ => true | None => false end).

(** Modelled from the spec: [SetCurrentContext(name) -> error]; the pointer is
    set whether or not a context of that name exists. *)
Definition kc_ModifyCurrentContext (name : string) : MK unit :=
  fun s => if modify_fails (faults (snd s))
           then (Err (Foreign (Collaborator "kubeconfig.ModifyCurrentContext")), s)
           else (Ok tt, (mkKubeconfig (contexts (fst s)) name, snd s)).

(** Modelled from the spec: [NamespaceOfContext(name) -> namespace-or-error],
    an error for a name that is no context. *)
Definition kc_NamespaceOfContext (ctx : string) : MK string :=
  fun s => match contexts (fst s) !! ctx with
           | Some ns => (Ok ns, s)
           | None => (Err (Foreign (Collaborator "kubeconfig.NamespaceOfContext")), s)
           end.

(** Modelled from the spec: [SetNamespace(name, ns) -> error]. *)
Definition kc_SetNamespace (ctx ns : string) : MK unit :=
  fun s => match contexts (fst s) !! ctx with
           | Some _ =>
               if set_namespace_fails (faults (snd s))
               then (Err (Foreign (Collaborator "kubeconfig.SetNamespace")), s)
               else (Ok tt, (mkKubeconfig (<[ctx := ns]> (contexts (fst s)))
                                          (current_context (fst s)), snd s))
           | None => (Err (Foreign (Collaborator "kubeconfig.SetNamespace")), s)
           end.

(** Modelled from the spec: [Save() -> error]; the saved configuration
    becomes the object's. *)
Definition kc_Save : MK unit :=
  fun s => if save_fails (faults (snd s))
           then (Err (Foreign (Collaborator "kubeconfig.Save")), s)
           else (Ok tt, (fst s, set_kubeconfig_file (fst s) (snd s))).

(** Modelled from the spec: [SerializeToBytes() -> bytes-or-error]; the bytes
    stand for the configuration they encode. *)
Definition kc_Bytes : MK Kubeconfig :=
  fun s => if bytes_fails (faults (snd s))
           then (Err (Foreign (Collaborator "kubeconfig.Bytes")), s)
           else (Ok (fst s), s).

(** *** Files *)

Definition ioutil_ReadFile (path : string) : M string :=
  fun w => match files w !! path with
           | None => (Err (Foreign ENOENT), w)
           | Some data => if read_fails (faults w) then (Err (Foreign EOTHER), w)
                          else (Ok data, w)
           end.

Definition ioutil_WriteFile (path data : string) : M unit :=
  fun w => if write_fails (faults w) then (Err (Foreign EOTHER), w)
           else (Ok tt, set_files (<[path := data]> (files w)) w).

(** Directories are not tracked: [os.MkdirAll] succeeds or fails, no more. *)
Definition os_MkdirAll (d : string) : M unit :=
  fun w => if mkdir_fails (faults w) then (Err (Foreign EOTHER), w) else (Ok tt, w).

Definition os_Getenv (key : string) (w : World) : string :=
  match environ w !! key with Some v => v | None => "" end.

(** Modelled from the spec: the State Store of the previous context
    (cmd/kubectx/state.go is not among the sources): a single persisted string
    at a fixed location, absent meaning no history yet, overwritten on write. *)
Definition kubectxPrevCtxFile : M string :=
  fun w => if state_file_fails (faults w)
           then (Err (Foreign (Collaborator "kubectxPrevCtxFile")), w)
           else (Ok (prev_ctx_path w), w).

(** Modelled from the spec: reading the previous-context record, an absent
    file read as the empty record. *)
Definition readLastContext (path : string) : M string :=
  fun w => match ioutil_ReadFile path w with
           | (Err e, w') => if os_IsNotExist e then (Ok "", w') else (Err e, w')
           | r => r
           end.

(** Modelled from the spec: overwriting the previous-context record. *)
Definition writeLastContext (path value : string) : M unit :=
  ioutil_WriteFile path value.

(** Modelled from the spec: [printer.Success] (package internal/printer is not
    among the sources); colours are left out, the message is appended. *)
Definition printer_Success (msg : string) : M unit :=
  fun w => if print_fails (faults w)
           then (Err (Foreign (Collaborator "printer.Success")), w)
           else (Ok tt, set_stderr (stderr w ++ [msg])%list w).

(** ** The Context Switch Engine (switch.go) *)

(** The spec's names for the errors the engines raise themselves. *)
Definition NotFound (name : string) : error :=
  Errorf ("no context exists with the name: " ++ dq ++ name ++ dq).

Definition NoHistory : error := Errorf "no previous context found".

Definition NamespaceNotFound (ns : string) : error :=
  Errorf ("no namespace exists with name " ++ dq ++ ns ++ dq).

Definition QueryError (cause : error) : error :=
  Wrap cause "failed to query if namespace exists (is cluster accessible?)".

(** [switchContext] switches to specified context name. *)
Definition switchContext (name : string) : M string :=
  prevCtxFile <- wrap "failed to determine state file" kubectxPrevCtxFile ;;
  with_kubeconfig (
    _ <- wrap "kubeconfig error" kc_Parse ;;
    prev <- kc_GetCurrentContext ;;
    exists_ <- kc_ContextExists name ;;
    if negb exists_ then fail (NotFound name)
    else
      _ <- kc_ModifyCurrentContext name ;;
      _ <- wrap "failed to save kubeconfig" kc_Save ;;
      _ <- (if negb (prev =? name)%string
            then wrap "failed to save previous context name"
                      (liftW (writeLastContext prevCtxFile prev))
            else ret tt) ;;
      ret name).

(** [swapContext] switches to previously switch context. *)
Definition swapContext : M string :=
  prevCtxFile <- wrap "failed to determine state file" kubectxPrevCtxFile ;;
  prev <- wrap "failed to read previous context file" (readLastContext prevCtxFile) ;;
  if (prev =? "")%string then fail NoHistory
  else switchContext prev.

(** ** The Namespace Switch Engine (switch.go) *)

(** [%q] of a string; the escaping of unprintable characters is left out. *)
Definition quoted (s : string) : string := dq ++ s ++ dq.

Definition newKubernetesClientSet : MK (string -> bool * option error) :=
  b <- wrap "failed to convert in-memory kubeconfig to yaml" kc_Bytes ;;
  fun s => match k8s (snd s) b with
           | BadConfig e => (Err (Wrap e "failed to initialize config"), s)
           | NoClient e => (Err e, s)
           | Client get => (Ok get, s)
           end.

Definition namespaceExists (ns : string) : MK bool :=
  mock <- gets (fun s => os_Getenv "_MOCK_NAMESPACES" (snd s)) ;;
  if negb (mock =? "")%string then ret ((ns =? "ns1")%string || (ns =? "ns2")%string)
  else
    clientset <- wrap "failed to initialize k8s REST client" newKubernetesClientSet ;;
    let (namespace_non_nil, err) := clientset ns in
    if errors2_IsNotFound err then ret false
    else
      match err with
      | None => ret namespace_non_nil
      | Some e => fail (Wrap e ("failed to query namespace " ++ quoted ns ++ " from k8s API"))
      end.

(** [NSFile] manages namespace state files for contexts. *)
Record NSFile := mkNSFile {
  dir : string;
  ctx : string
}.

Definition nsFileDefaultDir (w : World) : string :=
  filepath_Join w [home_dir w; ".kube"; "kubens"].

Definition NewNSFile (ctx : string) (w : World) : NSFile :=
  mkNSFile (nsFileDefaultDir w) ctx.

(** [isWindows] determines if the process is running on windows OS. *)
Definition isWindows (w : World) : bool :=
  if (os_Getenv "_FORCE_GOOS" w =? "windows")%string then true
  else (goos w =? "windows")%string.

(** [strings.ReplaceAll(s, old, new)] for a pattern [old] of one byte. *)
Fixpoint ReplaceAll (s : string) (old : ascii) (new : string) : string :=
  match s with
  | EmptyString => EmptyString
  | String c rest =>
      if Ascii.eqb c old then new ++ ReplaceAll rest old new
      else String c (ReplaceAll rest old new)
  end.

(** The local [fn] of [NSFile.path]: the name handed to [filepath.Join]. *)
Definition fileName (windows : bool) (ctx : string) : string :=
  if windows then ReplaceAll ctx ":"%char "__" else ctx.

Definition NSFile_path (f : NSFile) (w : World) : string :=
  filepath_Join w [dir f; fileName (isWindows w) (ctx f)].

(** [bytes.TrimSpace] on the ASCII white space of Go's [unicode.IsSpace]
    (tab, line feed, vertical tab, form feed, carriage return, space); white
    space encoded in several bytes is not recognised here. *)
Definition isSpace (c : ascii) : bool :=
  let n := nat_of_ascii c in
  (Nat.leb 9 n && Nat.leb n 13) || Nat.eqb n 32.

Fixpoint trimLeft (s : string) : string :=
  match s with
  | EmptyString => EmptyString
  | String c rest => if isSpace c then trimLeft rest else s
  end.

Fixpoint trimRight (s : string) : string :=
  match s with
  | EmptyString => EmptyString
  | String c rest =>
      match trimRight rest with
      | EmptyString => if isSpace c then EmptyString else String c EmptyString
      | t => String c t
      end
  end.

Definition bytes_TrimSpace (s : string) : string := trimRight (trimLeft s).

(** [Load] reads the previous namespace setting, or returns empty if not exists. *)
Definition NSFile_Load (f : NSFile) : M string :=
  fun w => match ioutil_ReadFile (NSFile_path f w) w with
           | (Err e, w') => if os_IsNotExist e then (Ok "", w') else (Err e, w')
           | (Ok b, w') => (Ok (bytes_TrimSpace b), w')
           end.

(** [Save] stores the previous namespace information in the file. *)
Definition NSFile_Save (f : NSFile) (value : string) : M unit :=
  d <- gets (fun w => filepath_Dir w (NSFile_path f w)) ;;
  _ <- os_MkdirAll d ;;
  path <- gets (NSFile_path f) ;;
  ioutil_WriteFile path value.

(** [switchNamespace] switches to the specified namespace in the given context. *)
Definition switchNamespace (ctx ns : string) (force : bool) : MK string :=
  curNS <- wrap "failed to get current namespace" (kc_NamespaceOfContext ctx) ;;
  f <- gets (fun s => NewNSFile ctx (snd s)) ;;
  _ <- (if negb force then
          ok <- wrap "failed to query if namespace exists (is cluster accessible?)"
                     (namespaceExists ns) ;;
          if negb ok then fail (NamespaceNotFound ns) else ret tt
        else ret tt) ;;
  _ <- wrap ("failed to change to namespace " ++ dq ++ ns ++ dq) (kc_SetNamespace ctx ns) ;;
  _ <- wrap "failed to save kubeconfig file" kc_Save ;;
  _ <- (if negb (curNS =? ns)%string
        then wrap "failed to save the previous namespace to file"
                  (liftW (NSFile_Save f curNS))
        else ret tt) ;;
  ret ns.

(** ** Running operations *)

(** [SwitchOp.Run]. *)
Definition SwitchOp_Run (Target Namespace : string) : M unit :=
  newCtx <- wrap "failed to switch context"
                 (if (Target =? "-")%string then swapContext else switchContext Target) ;;
  if negb (Namespace =? "")%string then
    with_kubeconfig (
      _ <- wrap "kubeconfig error" kc_Parse ;;
      toNS <- wrap "failed to switch namespace" (switchNamespace newCtx Namespace false) ;;
      wrap "print error"
           (liftW (printer_Success
                     ("Switched to context " ++ dq ++ newCtx ++ dq
                      ++ " and namespace " ++ dq ++ toNS ++ dq ++ "."))))
  else
    wrap "print error"
         (printer_Success ("Switched to context " ++ dq ++ newCtx ++ dq ++ ".")).

(** [UnsupportedOp.Run]. *)
Definition UnsupportedOp_Run (err : error) : M unit := fail err.

(** ** Views used to state and prove the properties *)

(** The first namespace flag of a token list: the tokens before it and the
    tokens after it. *)
Fixpoint findNamespaceFlag (l : list string) : option (list string * list string) :=
  match l with
  | [] => None
  | a :: l' =>
      if isNamespaceFlag a then Some ([], l')
      else match findNamespaceFlag l' with
           | Some (pre, post) => Some (a :: pre, post)
           | None => None
           end
  end.

(** What the scan loop computes, read off the token list from position [i]. *)
Definition scanView (rest : list string) (i : Z) : scan :=
  match findNamespaceFlag rest with
  | None => Scanned "" (-1)
  | Some (_, []) =>
      Returned (UnsupportedOp (Errorf "'-n' requires a namespace argument"))
  | Some (pre, v :: _) => Scanned v (i + len pre)
  end.

(** The part of [parseArgs] after the namespace flag is taken out. *)
Definition afterScan (interactive : bool) (self : string)
           (remainingArgs : list string) (namespace : string) : Op :=
  match remainingArgs with
  | [] =>
      if negb (namespace =? "")%string
      then UnsupportedOp (Errorf "context name is required when using -n flag")
      else if interactive then InteractiveSwitchOp self else ListOp
  | [v] => classify v namespace
  | _ => UnsupportedOp (Errorf "too many arguments")
  end.

(** [parseArgs] on lists, without indices: the operation it resolves to. *)
Definition resolve (interactive : bool) (self : string) (argv : list string) : Op :=
  match argv with
  | [] => if interactive then InteractiveSwitchOp self else ListOp
  | a0 :: rest =>
      if (a0 =? "-d")%string then
        match rest with
        | [] => if interactive then InteractiveDeleteOp self
                else UnsupportedOp (Errorf "'-d' needs arguments")
        | _ => DeleteOp rest
        end
      else
        match findNamespaceFlag argv with
        | None => afterScan interactive self argv ""
        | Some (_, []) =>
            UnsupportedOp (Errorf "'-n' requires a namespace argument")
        | Some (pre, v :: post) => afterScan interactive self (pre ++ post)%list v
        end
  end.

(** Tokens that the classification chain takes for the name of a context to
    switch to: not in rename syntax, and not starting with a dash unless the
    token is the dash alone. *)
Definition isSwitchTarget (v : string) : bool :=
  match parseRenameSyntax v with
  | Some _ => false
  | None => negb (String.prefix "-" v && negb (v =? "-")%string)
  end.

(** The active-context pointer of the saved configuration. *)
Definition activeContext (w : World) : string :=
  match kubeconfig_file w with
  | Some kc => current_context kc
  | None => ""
  end.

(** The namespace the saved configuration records for a context. *)
Definition savedNamespace (ctx : string) (w : World) : option string :=
  match kubeconfig_file w with
  | Some kc => contexts kc !! ctx
  | None => None
  end.

(** The PreviousContextRecord and the PreviousNamespaceRecord of a context. *)
Definition previousContextRecord (w : World) : option string :=
  files w !! prev_ctx_path w.

Definition previousNamespaceRecord (ctx : string) (w : World) : option string :=
  files w !! NSFile_path (NewNSFile ctx w) w.

(** Undoing the Windows escaping: two underscores back to a colon. *)
Fixpoint unescape (s : string) : string :=
  match s with
  | EmptyString => EmptyString
  | String c rest =>
      if Ascii.eqb c "_"%char then
        match rest with
        | String c' rest' =>
            if Ascii.eqb c' "_"%char then String ":"%char (unescape rest')
            else String c (unescape rest)
        | EmptyString => String c EmptyString
        end
      else String c (unescape rest)
  end.

Fixpoint hasChar (x : ascii) (s : string) : bool :=
  match s with
  | EmptyString => false
  | String c rest => Ascii.eqb c x || hasChar x rest
  end.

(** The world a successful switch leaves behind. *)
Definition switched (name : string) (kc : Kubeconfig) (w : World) : World :=
  let w' := set_kubeconfig_file (mkKubeconfig (contexts kc) name) w in
  if (current_context kc =? name)%string then w'
  else set_files (<[prev_ctx_path w := current_context kc]> (files w)) w'.

(** ** Sample worlds for the examples *)

(** A stand-in for [filepath.Join]: the elements with a slash between them. *)
Definition sample_Join (elems : list string) : string := String.concat "/" elems.

(** A stand-in for [filepath.Dir]: everything before the last slash. *)
Fixpoint sample_Dir (path : string) : string :=
  match path with
  | EmptyString => EmptyString
  | String c rest =>
      if hasChar "/"%char rest then String c (sample_Dir rest) else EmptyString
  end.

Definition sample_world (os : string) (env : gmap string string) (cluster : dial)
           (kc : Kubeconfig) (fs : gmap string string) : World :=
  mkWorld os env "/home/u" sample_Join sample_Dir "/home/u/.kube/kubectx"
          no_faults (Some kc) fs (fun _ => cluster) [].

Definition mock_env : gmap string string := {[ "_MOCK_NAMESPACES" := "1" ]}.

Definition unreachable : dial := NoClient (Foreign ApiOther).

(** Two contexts, [dev] active, [prod] the previous one. *)
Definition kc_two : Kubeconfig :=
  mkKubeconfig (<["dev" := "team-a"]> (<["prod" := "team-b"]> empty)) "dev".

Definition w_two : World :=
  sample_world "linux" mock_env unreachable kc_two
               (<["/home/u/.kube/kubectx" := "prod"]> empty).

(** The same, with no mocked namespaces and no cluster to ask. *)
Definition w_offline : World :=
  sample_world "linux" empty unreachable kc_two empty.

(** A configuration with a context whose name is the empty string. *)
Definition kc_unnamed : Kubeconfig :=
  mkKubeconfig (<["" := "default"]> (<["prod" := "default"]> empty)) "prod".

Definition w_unnamed : World :=
  sample_world "linux" empty unreachable kc_unnamed empty.

(** A reachable cluster whose only namespace is [kube-system]. *)
Definition one_namespace : dial :=
  Client (fun ns => if (ns =? "kube-system")%string then (true, None)
                    else (true, Some (Foreign ApiNotFound))).

Definition w_cluster : World :=
  sample_world "linux" empty one_namespace kc_two empty.

Definition w_windows : World :=
  sample_world "windows" empty unreachable kc_two empty.

(** ** Further worlds and views for the properties of the engines *)

(** The world after a namespace switch that got through. *)
Definition namespace_switched (ctx ns cur : string) (kc : Kubeconfig) (w : World) : World :=
  let kc' := mkKubeconfig (<[ctx := ns]> (contexts kc)) (current_context kc) in
  let w' := set_kubeconfig_file kc' w in
  if (cur =? ns)%string then w'
  else set_files (<[NSFile_path (NewNSFile ctx w) w := cur]> (files w)) w'.


Definition with_faults (f : Faults) (w : World) : World :=
  mkWorld (goos w) (environ w) (home_dir w) (filepath_Join w) (filepath_Dir w)
          (prev_ctx_path w) f (kubeconfig_file w) (files w) (k8s w) (stderr w).

(** State files cannot be written; everything else works. *)
Definition write_failing : Faults :=
  mkFaults false false false false false false false true false.

Definition w_readonly : World := with_faults write_failing w_two.

(** The previous-context record names a context that is gone. *)
Definition w_stale : World :=
  sample_world "linux" empty unreachable kc_two
               (<["/home/u/.kube/kubectx" := "staging"]> empty).

(** * Properties *)

(** ** Slices and the scan for the namespace flag *)

Section Slices.
Context {A : Type}.

Lemma len_app (l1 l2 : list A) : len (l1 ++ l2)%list = len l1 + len l2.
Proof. unfold len. rewrite List.length_app. lia. Qed.

Lemma len_cons (a : A) (l : list A) : len (a :: l) = 1 + len l.
Proof. unfold len. simpl List.length. lia. Qed.

Lemma len_nonneg (l : list A) : 0 <= len l.
Proof. unfold len. lia. Qed.

Lemma at_index_middle (done rest : list A) (a : A) :
  at_index (done ++ a :: rest)%list (len done) = Some a.
Proof.
  unfold at_index. rewrite len_app, len_cons.
  pose proof (len_nonneg done). pose proof (len_nonneg rest).
  replace (0 <=? len done) with true by (symmetry; apply Z.leb_le; lia).
  replace (len done <? len done + (1 + len rest)) with true
    by (symmetry; apply Z.ltb_lt; lia).
  simpl. unfold len. rewrite Nat2Z.id. by apply list_lookup_middle.
Qed.

Lemma slice_prefix (pre post : list A) :
  slice (pre ++ post)%list 0 (len pre) = Some pre.
Proof.
  unfold slice. rewrite len_app.
  pose proof (len_nonneg pre). pose proof (len_nonneg post).
  replace (0 <=? 0) with true by reflexivity.
  replace (0 <=? len pre) with true by (symmetry; apply Z.leb_le; lia).
  replace (len pre <=? len pre + len post) with true by (symmetry; apply Z.leb_le; lia).
  simpl. rewrite Z.sub_0_r. unfold len. rewrite Nat2Z.id.
  change (Z.to_nat 0) with 0%nat. rewrite drop_0. by rewrite take_app_length.
Qed.

Lemma slice_suffix (pre post : list A) :
  slice (pre ++ post)%list (len pre) (len (pre ++ post)%list) = Some post.
Proof.
  unfold slice. rewrite len_app.
  pose proof (len_nonneg pre). pose proof (len_nonneg post).
  replace (0 <=? len pre) with true by (symmetry; apply Z.leb_le; lia).
  replace (len pre <=? len pre + len post) with true by (symmetry; apply Z.leb_le; lia).
  replace (len pre + len post <=? len pre + len post) with true by (symmetry; apply Z.leb_le; lia).
  simpl. replace (len pre + len post - len pre) with (len post) by lia.
  unfold len. rewrite !Nat2Z.id. rewrite drop_app_length. by rewrite firstn_all.
Qed.

End Slices.

Lemma findNamespaceFlag_split l pre post :
  findNamespaceFlag l = Some (pre, post) ->
  exists flag, isNamespaceFlag flag = true /\ l = (pre ++ flag :: post)%list.
Proof.
  revert pre post. induction l as [|a l IH]; intros pre post H; simpl in H; [discriminate|].
  destruct (isNamespaceFlag a) eqn:Ha.
  - injection H as <- <-. exists a. auto.
  - destruct (findNamespaceFlag l) as [[p q]|] eqn:E; [|discriminate].
    injection H as <- <-. destruct (IH p q eq_refl) as (flag & Hf & ->).
    exists flag. auto.
Qed.

Lemma scanNamespace_view rest : forall done fuel,
  (List.length rest <= fuel)%nat ->
  scanNamespace (done ++ rest)%list fuel (len done) = Some (scanView rest (len done)).
Proof.
  induction rest as [|a rest IH]; intros done fuel Hfuel.
  - rewrite app_nil_r. destruct fuel; simpl; rewrite Z.leb_refl; reflexivity.
  - destruct fuel as [|fuel]; [simpl in Hfuel; lia|].
    simpl in Hfuel. cbn [scanNamespace].
    pose proof (len_nonneg done). pose proof (len_nonneg rest).
    replace (len (done ++ a :: rest)%list <=? len done) with false
      by (symmetry; apply Z.leb_gt; rewrite len_app, len_cons; lia).
    rewrite at_index_middle. unfold scanView. cbn [findNamespaceFlag].
    destruct (isNamespaceFlag a) eqn:Ha.
    + destruct rest as [|v rest].
      * replace (len (done ++ [a])%list <=? len done + 1) with true
          by (symmetry; apply Z.leb_le; rewrite len_app, len_cons; unfold len; simpl; lia).
        reflexivity.
      * replace (len (done ++ a :: v :: rest)%list <=? len done + 1) with false
          by (symmetry; apply Z.leb_gt; rewrite len_app, !len_cons; pose proof (len_nonneg rest); lia).
        replace (done ++ a :: v :: rest)%list with ((done ++ [a]) ++ v :: rest)%list
          by (by rewrite <- app_assoc).
        replace (len done + 1) with (len (done ++ [a])%list)
          by (rewrite len_app, len_cons; unfold len; simpl; lia).
        rewrite at_index_middle. f_equal. f_equal.
        unfold len; simpl; lia.
    + replace (done ++ a :: rest)%list with ((done ++ [a]) ++ rest)%list
        by (by rewrite <- app_assoc).
      replace (len done + 1) with (len (done ++ [a])%list)
        by (rewrite len_app, len_cons; unfold len; simpl; lia).
      rewrite IH by lia. unfold scanView.
      destruct (findNamespaceFlag rest) as [[pre [|v post]]|]; try reflexivity.
      f_equal. f_equal. rewrite len_app, !len_cons. unfold len; simpl; lia.
Qed.

Lemma scanned_flag argv v k :
  scanNamespace argv (List.length argv) 0 = Some (Scanned v k) -> 0 <= k ->
  exists pre flag post,
    argv = (pre ++ flag :: v :: post)%list /\ isNamespaceFlag flag = true
    /\ findNamespaceFlag argv = Some (pre, v :: post) /\ k = len pre.
Proof.
  intros Hscan Hk.
  pose proof (scanNamespace_view argv [] (List.length argv) (le_n _)) as Hview.
  change ([] ++ argv)%list with argv in Hview.
  change (len (@nil string)) with 0 in Hview.
  rewrite Hview in Hscan. unfold scanView in Hscan.
  destruct (findNamespaceFlag argv) as [[pre [|v' post]]|] eqn:E.
  - discriminate Hscan.
  - injection Hscan as -> <-.
    destruct (findNamespaceFlag_split _ _ _ E) as (flag & Hf & ->).
    exists pre, flag, post. repeat split; auto.
  - injection Hscan as _ <-. lia.
Qed.

(** ** Classification of the remaining token *)

Ltac not_literal v s H :=
  let E := fresh "E" in
  destruct (String.eqb v s) eqn:E;
  [apply String.eqb_eq in E; subst v; simpl in H; discriminate H|].

Lemma isNamespaceFlag_not_delete flag :
  isNamespaceFlag flag = true -> (flag =? "-d")%string = false.
Proof.
  unfold isNamespaceFlag. intros H.
  destruct (String.eqb flag "-n") eqn:E1;
    [apply String.eqb_eq in E1; subst flag; reflexivity|].
  destruct (String.eqb flag "--namespace") eqn:E2;
    [apply String.eqb_eq in E2; subst flag; reflexivity|].
  discriminate H.
Qed.

Lemma switchTarget_plain c :
  isSwitchTarget c = true ->
  (c =? "-d")%string = false /\ isNamespaceFlag c = false.
Proof.
  unfold isSwitchTarget, isNamespaceFlag. intros H.
  destruct (parseRenameSyntax c) eqn:Hr.
  { discriminate H. }
  not_literal c "-d" H. not_literal c "-n" H. not_literal c "--namespace" H.
  auto.
Qed.

Lemma classify_switchTarget c namespace :
  isSwitchTarget c = true -> classify c namespace = SwitchOp c namespace.
Proof.
  unfold isSwitchTarget, classify. intros H.
  destruct (parseRenameSyntax c) eqn:Hr; [discriminate H|].
  not_literal c "--help" H. not_literal c "-h" H.
  not_literal c "--version" H. not_literal c "-V" H.
  not_literal c "--current" H. not_literal c "-c" H.
  not_literal c "--unset" H. not_literal c "-u" H.
  cbn [orb].
  destruct (String.prefix "-" c && negb (c =? "-")%string); [discriminate H|reflexivity].
Qed.

(** ** What [parseArgs] resolves to *)

Section Resolution.
Variables (interactive : bool) (self : string).

Lemma dispatch_afterScan (r : list string) (namespace : string) :
  (if len r =? 0 then
     if negb (namespace =? "")%string then
       Some (UnsupportedOp (Errorf "context name is required when using -n flag"))
     else Some (if interactive then InteractiveSwitchOp self else ListOp)
   else if len r =? 1 then
     v <-? at_index r 0 ;;
     Some (classify v namespace)
   else Some (UnsupportedOp (Errorf "too many arguments")))
  = Some (afterScan interactive self r namespace).
Proof.
  destruct r as [|v [|v' r]].
  - simpl. destruct (negb (namespace =? "")%string); reflexivity.
  - reflexivity.
  - pose proof (len_nonneg r).
    destruct (Z.eqb_spec (len (v :: v' :: r)) 0) as [E|_];
      [rewrite !len_cons in E; lia|].
    destruct (Z.eqb_spec (len (v :: v' :: r)) 1) as [E|_];
      [rewrite !len_cons in E; lia|].
    reflexivity.
Qed.

Lemma parseArgs_resolve argv :
  parseArgs interactive self argv = Some (resolve interactive self argv).
Proof.
  unfold parseArgs, resolve. destruct argv as [|a0 rest]; [reflexivity|].
  pose proof (len_nonneg rest) as Hrest.
  destruct (Z.eqb_spec (len (a0 :: rest)) 0) as [E|_]; [rewrite len_cons in E; lia|].
  change (at_index (a0 :: rest) 0) with (Some a0). cbv beta iota.
  destruct (a0 =? "-d")%string.
  - destruct rest as [|b rest]; [reflexivity|].
    destruct (Z.eqb_spec (len (a0 :: b :: rest)) 1) as [E|_];
      [rewrite !len_cons in E; pose proof (len_nonneg rest); lia|].
    change (a0 :: b :: rest) with ([a0] ++ b :: rest)%list at 1 2.
    change 1 with (len [a0]) at 1.
    by rewrite slice_suffix.
  - remember (a0 :: rest) as argv eqn:Hargv.
    pose proof (scanNamespace_view argv [] (List.length argv) (le_n _)) as Hscan.
    change ([] ++ argv)%list with argv in Hscan.
    change (len (@nil string)) with 0 in Hscan. rewrite Hscan. clear Hscan.
    unfold scanView.
    destruct (findNamespaceFlag argv) as [[pre [|v post]]|] eqn:E.
    + reflexivity.
    + apply findNamespaceFlag_split in E as (flag & _ & E).
      pose proof (len_nonneg pre).
      replace (0 <=? 0 + len pre) with true by (symmetry; apply Z.leb_le; lia).
      rewrite Z.add_0_l. rewrite E at 1. rewrite slice_prefix.
      replace (slice argv (len pre + 2) (len argv)) with (Some post).
      * apply dispatch_afterScan.
      * rewrite E. replace (pre ++ flag :: v :: post)%list
          with ((pre ++ [flag; v]) ++ post)%list by (by rewrite <- app_assoc).
        replace (len pre + 2) with (len (pre ++ [flag; v])%list)
          by (rewrite len_app; reflexivity).
        by rewrite slice_suffix.
    + replace (0 <=? -1) with false by reflexivity.
      apply dispatch_afterScan.
Qed.

Lemma parse_flag_then_target flag n c :
  isNamespaceFlag flag = true -> isSwitchTarget c = true ->
  parseArgs interactive self [flag; n; c] = Some (SwitchOp c n).
Proof.
  intros Hf Hc. rewrite parseArgs_resolve. unfold resolve.
  rewrite (isNamespaceFlag_not_delete _ Hf). cbn [findNamespaceFlag].
  rewrite Hf. simpl. by rewrite classify_switchTarget.
Qed.

Lemma parse_target_then_flag flag n c :
  isNamespaceFlag flag = true -> isSwitchTarget c = true ->
  parseArgs interactive self [c; flag; n] = Some (SwitchOp c n).
Proof.
  intros Hf Hc. rewrite parseArgs_resolve. unfold resolve.
  destruct (switchTarget_plain _ Hc) as [Hd Hn].
  rewrite Hd. cbn [findNamespaceFlag]. rewrite Hn, Hf. simpl.
  by rewrite classify_switchTarget.
Qed.

Lemma parse_target_flag_more flag n c extra more :
  isNamespaceFlag flag = true -> isSwitchTarget c = true ->
  parseArgs interactive self (c :: flag :: n :: extra :: more)
  = Some (UnsupportedOp (Errorf "too many arguments")).
Proof.
  intros Hf Hc. rewrite parseArgs_resolve. unfold resolve.
  destruct (switchTarget_plain _ Hc) as [Hd Hn].
  rewrite Hd. cbn [findNamespaceFlag]. rewrite Hn, Hf. reflexivity.
Qed.

Lemma parse_flag_more_target flag n c extra more :
  isNamespaceFlag flag = true ->
  parseArgs interactive self (flag :: n :: extra :: more ++ [c])%list
  = Some (UnsupportedOp (Errorf "too many arguments")).
Proof.
  intros Hf. rewrite parseArgs_resolve. unfold resolve.
  rewrite (isNamespaceFlag_not_delete _ Hf). cbn [findNamespaceFlag].
  rewrite Hf. simpl. destruct more; reflexivity.
Qed.

End Resolution.

Lemma resolve_variant (interactive : bool) (self self' : string) argv :
  variant (resolve interactive self' argv) = variant (resolve interactive self argv).
Proof.
  unfold resolve. destruct argv as [|a0 rest]; [by destruct interactive|].
  destruct (a0 =? "-d")%string.
  { destruct rest; [by destruct interactive|reflexivity]. }
  destruct (findNamespaceFlag (a0 :: rest)) as [[pre [|v post]]|]; [reflexivity| |].
  - unfold afterScan. destruct (pre ++ post)%list as [|x [|y l]]; try reflexivity.
    destruct (negb (v =? "")%string); [reflexivity|by destruct interactive].
  - reflexivity.
Qed.

Lemma resolve_self (interactive : bool) (self self' : string) argv :
  variant (resolve interactive self argv) = VInteractiveSwitch
  \/ variant (resolve interactive self argv) = VInteractiveDelete
  \/ resolve interactive self' argv = resolve interactive self argv.
Proof.
  unfold resolve. destruct argv as [|a0 rest].
  { destruct interactive; auto. }
  destruct (a0 =? "-d")%string.
  { destruct rest; [destruct interactive|]; auto. }
  destruct (findNamespaceFlag (a0 :: rest)) as [[pre [|v post]]|]; auto.
  unfold afterScan. destruct (pre ++ post)%list as [|x [|y l]]; auto.
  destruct (negb (v =? "")%string); [auto|destruct interactive; auto].
Qed.

(** ** Switching contexts *)

Ltac unfold_monad :=
  unfold bind, wrap, ret, fail, gets, liftW, with_kubeconfig.

Ltac unfold_store :=
  unfold kc_Parse, kc_GetCurrentContext, kc_ContextExists, kc_ModifyCurrentContext,
    kc_NamespaceOfContext, kc_SetNamespace, kc_Save, kc_Bytes,
    kubectxPrevCtxFile, readLastContext, writeLastContext,
    ioutil_ReadFile, ioutil_WriteFile, os_MkdirAll, printer_Success.

Section Monad.
Context {S A B : Type}.

Lemma bind_ok (m : State S A) (k : A -> State S B) s a s' :
  m s = (Ok a, s') -> bind m k s = k a s'.
Proof. intros H. unfold bind. by rewrite H. Qed.

Lemma wrap_ok msg (m : State S A) s a s' :
  m s = (Ok a, s') -> wrap msg m s = (Ok a, s').
Proof. intros H. unfold wrap. by rewrite H. Qed.

End Monad.

Lemma switchContext_unknown w name kc :
  kubeconfig_file w = Some kc -> contexts kc !! name = None ->
  switchContext name w
  = (Err (if state_file_fails (faults w)
          then Wrap (Foreign (Collaborator "kubectxPrevCtxFile"))
                    "failed to determine state file"
          else NotFound name), w).
Proof.
  intros Hkc Hname. unfold switchContext. unfold_monad. unfold_store.
  destruct (state_file_fails (faults w)); [reflexivity|].
  simpl. rewrite Hkc. simpl. rewrite Hname. reflexivity.
Qed.

Lemma switchContext_ok w name kc ns :
  faults w = no_faults -> kubeconfig_file w = Some kc ->
  contexts kc !! name = Some ns ->
  switchContext name w = (Ok name, switched name kc w).
Proof.
  intros Hf Hkc Hname. destruct w; simpl in Hf, Hkc; subst.
  unfold switchContext, switched. unfold_monad. unfold_store.
  simpl. rewrite Hname. simpl.
  destruct (current_context kc =? name)%string; reflexivity.
Qed.

Lemma switchContext_noop_files w name kc :
  kubeconfig_file w = Some kc -> current_context kc = name ->
  files (snd (switchContext name w)) = files w.
Proof.
  intros Hkc Hcur. unfold switchContext. unfold_monad. unfold_store.
  destruct (state_file_fails (faults w)); [reflexivity|].
  simpl. rewrite Hkc. simpl.
  destruct (contexts kc !! name); simpl; [|reflexivity].
  destruct (modify_fails (faults w)); simpl; [reflexivity|].
  destruct (save_fails (faults w)); simpl; [reflexivity|].
  rewrite Hcur, String.eqb_refl. reflexivity.
Qed.

Lemma switchContext_records w name kc r w' :
  switchContext name w = (Ok r, w') ->
  kubeconfig_file w = Some kc -> current_context kc <> name ->
  previousContextRecord w' = Some (current_context kc).
Proof.
  intros Hrun Hkc Hcur. unfold switchContext in Hrun. revert Hrun.
  unfold_monad. unfold_store.
  destruct (state_file_fails (faults w)); [discriminate|].
  simpl. rewrite Hkc. simpl.
  destruct (contexts kc !! name); simpl; [|discriminate].
  destruct (modify_fails (faults w)); simpl; [discriminate|].
  destruct (save_fails (faults w)); simpl; [discriminate|].
  destruct (current_context kc =? name)%string eqn:E.
  { apply String.eqb_eq in E. contradiction. }
  simpl. destruct (write_fails (faults w)); simpl; [discriminate|].
  intros [= _ <-]. unfold previousContextRecord. simpl.
  apply lookup_insert_eq.
Qed.

Lemma switched_faults name kc w : faults (switched name kc w) = faults w.
Proof. unfold switched. destruct (current_context kc =? name)%string; reflexivity. Qed.

Lemma switched_path name kc w : prev_ctx_path (switched name kc w) = prev_ctx_path w.
Proof. unfold switched. destruct (current_context kc =? name)%string; reflexivity. Qed.

Lemma switched_kubeconfig name kc w :
  kubeconfig_file (switched name kc w) = Some (mkKubeconfig (contexts kc) name).
Proof. unfold switched. destruct (current_context kc =? name)%string; reflexivity. Qed.

Lemma switched_record name kc w :
  current_context kc <> name ->
  previousContextRecord (switched name kc w) = Some (current_context kc).
Proof.
  intros Hne. unfold previousContextRecord. rewrite switched_path. unfold switched.
  destruct (current_context kc =? name)%string eqn:E.
  - apply String.eqb_eq in E. contradiction.
  - simpl. apply lookup_insert_eq.
Qed.

Lemma swapContext_history w p :
  faults w = no_faults -> previousContextRecord w = Some p -> p <> "" ->
  swapContext w = switchContext p w.
Proof.
  intros Hf Hrec Hp. unfold previousContextRecord in Hrec.
  unfold swapContext. unfold_monad. unfold_store.
  rewrite Hf. simpl. rewrite Hrec, Hf. simpl.
  destruct (p =? "")%string eqn:E; [apply String.eqb_eq in E; contradiction|].
  reflexivity.
Qed.

Lemma namespaceExists_frame ns s : snd (namespaceExists ns s) = s.
Proof.
  unfold namespaceExists, newKubernetesClientSet. unfold_monad. unfold_store.
  simpl. destruct (negb (os_Getenv "_MOCK_NAMESPACES" s.2 =? "")%string); [reflexivity|].
  destruct (bytes_fails (faults s.2)); [reflexivity|].
  destruct (k8s s.2 s.1) as [e|e|get]; try reflexivity.
  destruct (get ns) as [nonnil [e|]]; simpl.
  - destruct e as [msg|cause msg|[| | | |what]]; reflexivity.
  - reflexivity.
Qed.

Lemma namespaceExists_static ns kc w w' :
  environ w = environ w' -> faults w = faults w' -> k8s w = k8s w' ->
  fst (namespaceExists ns (kc, w)) = fst (namespaceExists ns (kc, w')).
Proof.
  intros He Hf Hk.
  unfold namespaceExists, newKubernetesClientSet, os_Getenv. unfold_monad. unfold_store.
  simpl. rewrite He.
  destruct (negb (match environ w' !! "_MOCK_NAMESPACES" with Some v => v | None => "" end =? "")%string);
    [reflexivity|].
  cbn [fst snd]. rewrite Hf.
  destruct (bytes_fails (faults w')); [reflexivity|].
  cbn [fst snd]. rewrite Hk.
  destruct (k8s w' kc) as [e|e|get]; try reflexivity.
  destruct (get ns) as [nonnil [e|]]; simpl.
  - destruct e as [msg|cause msg|[| | | |what]]; reflexivity.
  - reflexivity.
Qed.

Lemma namespaceExists_run ns s : namespaceExists ns s = (fst (namespaceExists ns s), s).
Proof. rewrite <- (namespaceExists_frame ns s) at 3. by destruct (namespaceExists ns s). Qed.

(** ** Switching namespaces and state files *)

Lemma switchNamespace_absent kc w ctx ns cur :
  contexts kc !! ctx = Some cur ->
  fst (namespaceExists ns (kc, w)) = Ok false ->
  switchNamespace ctx ns false (kc, w) = (Err (NamespaceNotFound ns), (kc, w)).
Proof.
  intros Hctx Habs. unfold switchNamespace. unfold_monad. unfold_store.
  simpl. rewrite Hctx. simpl.
  rewrite (namespaceExists_run ns (kc, w)), Habs. reflexivity.
Qed.

Lemma switchNamespace_query_error kc w ctx ns cur e :
  contexts kc !! ctx = Some cur ->
  fst (namespaceExists ns (kc, w)) = Err e ->
  switchNamespace ctx ns false (kc, w) = (Err (QueryError e), (kc, w)).
Proof.
  intros Hctx Herr. unfold switchNamespace. unfold_monad. unfold_store.
  simpl. rewrite Hctx. simpl.
  rewrite (namespaceExists_run ns (kc, w)), Herr. reflexivity.
Qed.

Lemma switchNamespace_noop_files kc w ctx ns force :
  contexts kc !! ctx = Some ns ->
  files (snd (snd (switchNamespace ctx ns force (kc, w)))) = files w.
Proof.
  intros Hctx. unfold switchNamespace. unfold_monad. unfold_store.
  simpl. rewrite Hctx. simpl.
  assert (Htail : forall s0 : Kubeconfig * World, s0 = (kc, w) ->
    files (snd (snd (
      bind (wrap ("failed to change to namespace " ++ dq ++ ns ++ dq) (kc_SetNamespace ctx ns))
        (fun _ => bind (wrap "failed to save kubeconfig file" kc_Save)
          (fun _ => bind (if negb (ns =? ns)%string
                          then wrap "failed to save the previous namespace to file"
                                    (liftW (NSFile_Save (NewNSFile ctx w) ns))
                          else ret tt)
            (fun _ => ret ns))) s0))) = files w).
  { intros s0 ->. unfold_monad. unfold_store. simpl. rewrite Hctx.
    destruct (set_namespace_fails (faults w)); simpl; [reflexivity|].
    destruct (save_fails (faults w)); simpl; [reflexivity|].
    rewrite String.eqb_refl. reflexivity. }
  destruct force; simpl.
  - apply (Htail (kc, w) eq_refl).
  - rewrite (namespaceExists_run ns (kc, w)).
    destruct (fst (namespaceExists ns (kc, w))) as [[|]|e]; simpl; try reflexivity.
    apply (Htail (kc, w) eq_refl).
Qed.

Lemma switchNamespace_records kc w ctx ns force cur r kc' w' :
  switchNamespace ctx ns force (kc, w) = (Ok r, (kc', w')) ->
  contexts kc !! ctx = Some cur -> cur <> ns ->
  previousNamespaceRecord ctx w' = Some cur.
Proof.
  intros Hrun Hctx Hne. revert Hrun.
  assert (Htail : forall s0 : Kubeconfig * World, s0 = (kc, w) ->
    bind (wrap ("failed to change to namespace " ++ dq ++ ns ++ dq) (kc_SetNamespace ctx ns))
      (fun _ => bind (wrap "failed to save kubeconfig file" kc_Save)
        (fun _ => bind (if negb (cur =? ns)%string
                        then wrap "failed to save the previous namespace to file"
                                  (liftW (NSFile_Save (NewNSFile ctx w) cur))
                        else ret tt)
          (fun _ => ret ns))) s0 = (Ok r, (kc', w')) ->
    previousNamespaceRecord ctx w' = Some cur).
  { intros s0 ->. unfold NSFile_Save. unfold_monad. unfold_store. simpl. rewrite Hctx.
    destruct (set_namespace_fails (faults w)); simpl; [discriminate|].
    destruct (save_fails (faults w)); simpl; [discriminate|].
    destruct (cur =? ns)%string eqn:E; [apply String.eqb_eq in E; contradiction|].
    simpl. destruct (mkdir_fails (faults w)); simpl; [discriminate|].
    destruct (write_fails (faults w)); simpl; [discriminate|].
    intros [= _ _ <-]. unfold previousNamespaceRecord. simpl.
    apply lookup_insert_eq. }
  unfold switchNamespace. unfold_monad. unfold_store.
  simpl. rewrite Hctx. simpl.
  destruct force; simpl.
  - apply (Htail (kc, w) eq_refl).
  - rewrite (namespaceExists_run ns (kc, w)).
    destruct (fst (namespaceExists ns (kc, w))) as [[|]|e]; simpl; try discriminate.
    apply (Htail (kc, w) eq_refl).
Qed.

(** ** File names of the namespace state files *)

Lemma fileName_other ctx : fileName false ctx = ctx.
Proof. reflexivity. Qed.

Lemma ReplaceAll_no_colon s : hasChar ":"%char (ReplaceAll s ":"%char "__") = false.
Proof.
  induction s as [|c s IH]; simpl; [reflexivity|].
  destruct (Ascii.eqb c ":"%char) eqn:E; simpl; [assumption|].
  by rewrite E.
Qed.

Lemma ReplaceAll_id s : hasChar ":"%char s = false -> ReplaceAll s ":"%char "__" = s.
Proof.
  induction s as [|c s IH]; simpl; [reflexivity|].
  destruct (Ascii.eqb c ":"%char); simpl; [discriminate|].
  intros H. by rewrite IH.
Qed.

Lemma unescape_other c rest :
  Ascii.eqb c "_"%char = false -> unescape (String c rest) = String c (unescape rest).
Proof. intros H. destruct rest; simpl; by rewrite H. Qed.

Lemma unescape_pair rest :
  unescape (String "_"%char (String "_"%char rest)) = String ":"%char (unescape rest).
Proof. reflexivity. Qed.

Lemma unescape_ReplaceAll s :
  hasChar "_"%char s = false -> unescape (ReplaceAll s ":"%char "__") = s.
Proof.
  induction s as [|c s IH]; [reflexivity|].
  cbn [hasChar ReplaceAll]. intros H. apply orb_false_iff in H as [Hc Hs].
  destruct (Ascii.eqb c ":"%char) eqn:E.
  - apply Ascii.eqb_eq in E. subst c.
    change ("__" ++ ReplaceAll s ":"%char "__")
      with (String "_"%char (String "_"%char (ReplaceAll s ":"%char "__"))).
    rewrite unescape_pair. by rewrite IH.
  - rewrite (unescape_other _ _ Hc). by rewrite IH.
Qed.

(** ** Running a switch *)

Lemma switchNamespace_ok kc w ctx ns cur :
  faults w = no_faults -> contexts kc !! ctx = Some cur ->
  fst (namespaceExists ns (kc, w)) = Ok true ->
  exists w',
    switchNamespace ctx ns false (kc, w)
    = (Ok ns, (mkKubeconfig (<[ctx := ns]> (contexts kc)) (current_context kc), w'))
    /\ kubeconfig_file w'
       = Some (mkKubeconfig (<[ctx := ns]> (contexts kc)) (current_context kc))
    /\ faults w' = no_faults.
Proof.
  intros Hf Hctx Hex. unfold switchNamespace, NSFile_Save. unfold_monad. unfold_store.
  simpl. rewrite Hctx. simpl.
  rewrite (namespaceExists_run ns (kc, w)), Hex. simpl. rewrite Hctx, Hf. simpl.
  rewrite Hf. simpl.
  destruct (cur =? ns)%string; simpl.
  - eexists. split; [reflexivity|]. split; [reflexivity|assumption].
  - rewrite Hf. simpl. rewrite Hf. simpl.
    eexists. split; [reflexivity|]. split; [reflexivity|assumption].
Qed.

Lemma SwitchOp_Run_swap_namespace w kc p n cur :
  n <> "" -> faults w = no_faults ->
  previousContextRecord w = Some p -> p <> "" ->
  kubeconfig_file w = Some kc -> contexts kc !! p = Some cur ->
  fst (namespaceExists n (mkKubeconfig (contexts kc) p, w)) = Ok true ->
  exists w',
    SwitchOp_Run "-" n w = (Ok tt, w')
    /\ activeContext w' = p /\ savedNamespace p w' = Some n.
Proof.
  intros Hn Hf Hrec Hp Hkc Hctx Hex.
  set (kc1 := mkKubeconfig (contexts kc) p). set (w1 := switched p kc w).
  assert (Hswap : swapContext w = (Ok p, w1)).
  { rewrite (swapContext_history w p Hf Hrec Hp). by apply (switchContext_ok w p kc cur). }
  assert (Hf1 : faults w1 = no_faults) by (unfold w1; by rewrite switched_faults).
  assert (Hk1 : kubeconfig_file w1 = Some kc1) by apply switched_kubeconfig.
  assert (Hex1 : fst (namespaceExists n (kc1, w1)) = Ok true).
  { rewrite <- Hex. apply namespaceExists_static; unfold w1, switched;
      destruct (current_context kc =? p)%string; reflexivity. }
  destruct (switchNamespace_ok kc1 w1 p n cur Hf1 Hctx Hex1) as (w2 & Hsw & Hk2 & Hf2).
  unfold SwitchOp_Run. change ("-" =? "-")%string with true. cbv iota.
  rewrite (bind_ok _ _ w p w1 (wrap_ok _ _ _ _ _ Hswap)).
  destruct (n =? "")%string eqn:E; [apply String.eqb_eq in E; contradiction|].
  cbn [negb]. cbv iota. unfold with_kubeconfig.
  erewrite bind_ok; [|apply wrap_ok; unfold kc_Parse; simpl; rewrite Hk1; reflexivity].
  erewrite bind_ok; [|apply wrap_ok; exact Hsw].
  unfold wrap, liftW, printer_Success. simpl. rewrite Hf2. simpl.
  eexists. split; [reflexivity|].
  unfold activeContext, savedNamespace. simpl. rewrite Hk2. simpl.
  split; [reflexivity|]. apply lookup_insert_eq.
Qed.

(** ** Scenarios of the specification and of the test-suite *)

Example parse_flag_first :
  parseArgs false "kubectx" ["-n"; "ns1"; "ctx1"] = Some (SwitchOp "ctx1" "ns1").
Proof. reflexivity. Qed.

Example parse_flag_last :
  parseArgs false "kubectx" ["ctx1"; "--namespace"; "ns1"] = Some (SwitchOp "ctx1" "ns1").
Proof. reflexivity. Qed.

Example parse_flag_alone :
  parseArgs false "kubectx" ["-n"]
  = Some (UnsupportedOp (Errorf "'-n' requires a namespace argument")).
Proof. reflexivity. Qed.

Example parse_rename :
  parseArgs false "kubectx" ["new=old"] = Some (RenameOp "new" "old").
Proof. reflexivity. Qed.

Example parse_rename_current :
  parseArgs false "kubectx" ["new=."] = Some (RenameOp "new" ".").
Proof. reflexivity. Qed.

Example parse_delete_keeps_flags :
  parseArgs false "kubectx" ["-d"; "-n"; "x"] = Some (DeleteOp ["-n"; "x"]).
Proof. reflexivity. Qed.

Example swap_without_history :
  swapContext w_offline = (Err NoHistory, w_offline).
Proof. reflexivity. Qed.

Example switch_then_swap :
  activeContext (snd (swapContext (snd (switchContext "prod" w_offline)))) = "dev".
Proof. vm_compute. reflexivity. Qed.

Example switch_unknown_namespace :
  fst (SwitchOp_Run "prod" "unknown-ns" w_two)
  = Err (Wrap (NamespaceNotFound "unknown-ns") "failed to switch namespace").
Proof. vm_compute. reflexivity. Qed.

Example cluster_reports_absent :
  namespaceExists "ns1" (kc_two, w_cluster) = (Ok false, (kc_two, w_cluster))
  /\ namespaceExists "kube-system" (kc_two, w_cluster) = (Ok true, (kc_two, w_cluster)).
Proof. split; reflexivity. Qed.

Example load_trims_state_file :
  fst (NSFile_Load (NewNSFile "dev" w_two)
         (set_files (<["/home/u/.kube/kubens/dev" := "ns1" ++ String "010"%char EmptyString]>
                       (files w_two)) w_two))
  = Ok "ns1".
Proof. vm_compute. reflexivity. Qed.

Example trim_state_file :
  bytes_TrimSpace (String " "%char ("ns1" ++ String "010"%char EmptyString)) = "ns1".
Proof. reflexivity. Qed.

(** ** The claims *)

(** C1, as stated, fails: a configuration may hold a context whose name is the
    empty string, and the empty string is what [swapContext] takes for "no
    history".  After switching to that context and then to [prod], the swap
    reports [NoHistory] and [prod] stays active. *)
Lemma C1_unnamed_context_breaks_swap :
  contexts kc_unnamed !! "" = Some "default"
  /\ contexts kc_unnamed !! "prod" = Some "default"
  /\ fst (switchContext "" w_unnamed) = Ok ""
  /\ fst (switchContext "prod" (snd (switchContext "" w_unnamed))) = Ok "prod"
  /\ fst (swapContext (snd (switchContext "prod" (snd (switchContext "" w_unnamed)))))
     = Err NoHistory
  /\ activeContext
       (snd (swapContext (snd (switchContext "prod" (snd (switchContext "" w_unnamed))))))
     = "prod".
Proof. vm_compute. repeat split; reflexivity. Qed.

(** C1, amended: for existing context names A and B, different and both
    non-empty, when no collaborator call fails, [switchContext A] then
    [switchContext B] then [swapContext] succeed and leave A active, and one
    more [swapContext] succeeds and leaves B active. *)
Theorem C1_swap_toggles (w : World) (kc : Kubeconfig) (A B nsA nsB : string) :
  faults w = no_faults -> kubeconfig_file w = Some kc ->
  contexts kc !! A = Some nsA -> contexts kc !! B = Some nsB ->
  A <> B -> A <> "" -> B <> "" ->
  exists w1 w2 w3 w4,
    switchContext A w = (Ok A, w1) /\ switchContext B w1 = (Ok B, w2)
    /\ swapContext w2 = (Ok A, w3) /\ activeContext w3 = A
    /\ swapContext w3 = (Ok B, w4) /\ activeContext w4 = B.
Proof.
  intros Hf Hkc HA HB HAB HA0 HB0.
  set (kcA := mkKubeconfig (contexts kc) A). set (kcB := mkKubeconfig (contexts kc) B).
  set (w1 := switched A kc w). set (w2 := switched B kcA w1).
  set (w3 := switched A kcB w2). set (w4 := switched B kcA w3).
  assert (H1 : faults w1 = no_faults) by (unfold w1; by rewrite switched_faults).
  assert (H2 : faults w2 = no_faults) by (unfold w2; by rewrite switched_faults).
  assert (H3 : faults w3 = no_faults) by (unfold w3; by rewrite switched_faults).
  assert (K1 : kubeconfig_file w1 = Some kcA) by apply switched_kubeconfig.
  assert (K2 : kubeconfig_file w2 = Some kcB) by apply switched_kubeconfig.
  assert (K3 : kubeconfig_file w3 = Some kcA) by apply switched_kubeconfig.
  assert (K4 : kubeconfig_file w4 = Some kcB) by apply switched_kubeconfig.
  assert (R2 : previousContextRecord w2 = Some A) by (by apply (switched_record B kcA w1)).
  assert (R3 : previousContextRecord w3 = Some B)
    by (apply (switched_record A kcB w2); simpl; congruence).
  exists w1, w2, w3, w4. repeat split.
  - by apply (switchContext_ok w A kc nsA).
  - by apply (switchContext_ok w1 B kcA nsB).
  - rewrite (swapContext_history w2 A H2 R2 HA0). by apply (switchContext_ok w2 A kcB nsA).
  - unfold activeContext. by rewrite K3.
  - rewrite (swapContext_history w3 B H3 R3 HB0). by apply (switchContext_ok w3 B kcA nsB).
  - unfold activeContext. by rewrite K4.
Qed.

Lemma C1_swap_toggles_witness :
  exists w1 w2 w3 w4,
    switchContext "prod" w_offline = (Ok "prod", w1)
    /\ switchContext "dev" w1 = (Ok "dev", w2)
    /\ swapContext w2 = (Ok "prod", w3) /\ activeContext w3 = "prod"
    /\ swapContext w3 = (Ok "dev", w4) /\ activeContext w4 = "dev".
Proof.
  apply (C1_swap_toggles w_offline kc_two "prod" "dev" "team-b" "team-a");
    solve [reflexivity | discriminate].
Defined.

(** C2: a switch whose target is the value already active leaves the
    previous-value record untouched (no state file is written at all), for
    contexts and for namespaces; a switch to a different target that succeeds
    leaves in the record the value that was active before it. *)
Theorem C2_previous_record_rule :
  (forall w kc name,
      kubeconfig_file w = Some kc -> current_context kc = name ->
      files (snd (switchContext name w)) = files w)
  /\ (forall w kc name r w',
         kubeconfig_file w = Some kc -> current_context kc <> name ->
         switchContext name w = (Ok r, w') ->
         previousContextRecord w' = Some (current_context kc))
  /\ (forall kc w ctx ns force,
         contexts kc !! ctx = Some ns ->
         files (snd (snd (switchNamespace ctx ns force (kc, w)))) = files w)
  /\ (forall kc w ctx ns force cur r kc' w',
         contexts kc !! ctx = Some cur -> cur <> ns ->
         switchNamespace ctx ns force (kc, w) = (Ok r, (kc', w')) ->
         previousNamespaceRecord ctx w' = Some cur).
Proof.
  repeat split.
  - intros w kc name Hkc Hcur. by apply (switchContext_noop_files w name kc).
  - intros w kc name r w' Hkc Hcur Hrun. by apply (switchContext_records w name kc r w').
  - intros kc w ctx ns force Hctx. by apply switchNamespace_noop_files.
  - intros kc w ctx ns force cur r kc' w' Hctx Hne Hrun.
    by apply (switchNamespace_records kc w ctx ns force cur r kc' w').
Qed.

Lemma C2_previous_record_rule_witness :
  previousContextRecord (snd (switchContext "dev" w_two)) = Some "prod"
  /\ previousContextRecord (snd (switchContext "prod" w_two)) = Some "dev"
  /\ previousNamespaceRecord "dev"
       (snd (snd (switchNamespace "dev" "team-a" true (kc_two, w_two)))) = None
  /\ previousNamespaceRecord "dev"
       (snd (snd (switchNamespace "dev" "ns1" false (kc_two, w_two)))) = Some "team-a".
Proof.
  destruct C2_previous_record_rule as (Hctx_same & Hctx_new & Hns_same & Hns_new).
  split; [|split; [|split]].
  - unfold previousContextRecord.
    rewrite (Hctx_same w_two kc_two "dev" eq_refl eq_refl). reflexivity.
  - apply (Hctx_new w_two kc_two "prod" "prod" (snd (switchContext "prod" w_two)));
      [reflexivity | discriminate | vm_compute; reflexivity].
  - unfold previousNamespaceRecord.
    change (NSFile_path (NewNSFile "dev" _) _) with "/home/u/.kube/kubens/dev".
    rewrite (Hns_same kc_two w_two "dev" "team-a" true eq_refl). reflexivity.
  - apply (Hns_new kc_two w_two "dev" "ns1" false "team-a" "ns1"
                   (fst (snd (switchNamespace "dev" "ns1" false (kc_two, w_two)))));
      [reflexivity | discriminate | vm_compute; reflexivity].
Defined.

(** C3: with the existence check enabled, for a context of the configuration,
    when the cluster reports the namespace absent [switchNamespace] fails with
    [NamespaceNotFound], and when the query itself fails it fails with
    [QueryError]; either way the configuration, in memory and saved, and the
    rest of the world are as before. *)
Theorem C3_namespace_check_failures (kc : Kubeconfig) (w : World) (ctx ns cur : string) :
  contexts kc !! ctx = Some cur ->
  (fst (namespaceExists ns (kc, w)) = Ok false ->
   switchNamespace ctx ns false (kc, w) = (Err (NamespaceNotFound ns), (kc, w)))
  /\ (forall e, fst (namespaceExists ns (kc, w)) = Err e ->
                switchNamespace ctx ns false (kc, w) = (Err (QueryError e), (kc, w))).
Proof.
  intros Hctx. split.
  - intros Habs. by apply (switchNamespace_absent kc w ctx ns cur).
  - intros e Herr. by apply (switchNamespace_query_error kc w ctx ns cur e).
Qed.

Lemma C3_namespace_check_failures_witness :
  switchNamespace "dev" "unknown-ns" false (kc_two, w_two)
  = (Err (NamespaceNotFound "unknown-ns"), (kc_two, w_two))
  /\ switchNamespace "dev" "ns1" false (kc_two, w_cluster)
     = (Err (NamespaceNotFound "ns1"), (kc_two, w_cluster))
  /\ switchNamespace "dev" "ns1" false (kc_two, w_offline)
     = (Err (QueryError (Wrap (Foreign ApiOther) "failed to initialize k8s REST client")),
        (kc_two, w_offline)).
Proof.
  split; [|split].
  - apply (proj1 (C3_namespace_check_failures kc_two w_two "dev" "unknown-ns" "team-a"
                    eq_refl)).
    reflexivity.
  - apply (proj1 (C3_namespace_check_failures kc_two w_cluster "dev" "ns1" "team-a"
                    eq_refl)).
    reflexivity.
  - apply (proj2 (C3_namespace_check_failures kc_two w_offline "dev" "ns1" "team-a"
                    eq_refl)).
    reflexivity.
Defined.

(** C4: for a name that is not a context of the configuration, [switchContext]
    fails and leaves the whole world (the active-context pointer, the saved
    configuration, the previous-context record) as it was; the error is
    [NotFound] whenever the location of the state file can be determined. *)
Theorem C4_unknown_context_not_found (w : World) (kc : Kubeconfig) (name : string) :
  kubeconfig_file w = Some kc -> contexts kc !! name = None ->
  (exists e, switchContext name w = (Err e, w))
  /\ (state_file_fails (faults w) = false ->
      switchContext name w = (Err (NotFound name), w)).
Proof.
  intros Hkc Hname. rewrite (switchContext_unknown w name kc Hkc Hname). split.
  - eexists. reflexivity.
  - intros ->. reflexivity.
Qed.

Lemma C4_unknown_context_not_found_witness :
  switchContext "unknown-context" w_two = (Err (NotFound "unknown-context"), w_two).
Proof.
  apply (proj2 (C4_unknown_context_not_found w_two kc_two "unknown-context"
                  eq_refl eq_refl)).
  reflexivity.
Defined.

(** C5, as stated, fails: with an empty value token the flag and its value
    are consumed and nothing remains, yet the resolver lists the contexts (or
    starts the picker), because it tests the value, not the flag's position. *)
Lemma C5_empty_value_is_not_rejected :
  scanNamespace ["-n"; ""] 2 0 = Some (Scanned "" 0)
  /\ parseArgs false "kubectx" ["-n"; ""] = Some ListOp
  /\ parseArgs true "kubectx" ["-n"; ""] = Some (InteractiveSwitchOp "kubectx").
Proof. repeat split; reflexivity. Qed.

(** C5, amended: for every token sequence in which a namespace flag with a
    non-empty value token was consumed and zero tokens remain, the resolver
    returns Unsupported, "context name is required when using -n flag". *)
Theorem C5_namespace_needs_context
        (interactive : bool) (self : string) (argv : list string) (v : string) (k : Z) :
  scanNamespace argv (List.length argv) 0 = Some (Scanned v k) -> 0 <= k ->
  len argv - 2 = 0 -> v <> "" ->
  parseArgs interactive self argv
  = Some (UnsupportedOp (Errorf "context name is required when using -n flag")).
Proof.
  intros Hscan Hk Hlen Hv.
  destruct (scanned_flag _ _ _ Hscan Hk) as (pre & flag & post & -> & Hf & _ & _).
  rewrite len_app, !len_cons in Hlen.
  pose proof (len_nonneg pre). pose proof (len_nonneg post).
  destruct pre; [|rewrite len_cons in Hlen; pose proof (len_nonneg pre); lia].
  destruct post; [|rewrite len_cons in Hlen; pose proof (len_nonneg post); lia].
  rewrite parseArgs_resolve. simpl.
  rewrite (isNamespaceFlag_not_delete _ Hf), Hf. simpl.
  destruct (String.eqb v "") eqn:E; [apply String.eqb_eq in E; contradiction|reflexivity].
Qed.

Lemma C5_namespace_needs_context_witness :
  parseArgs true "kubectx" ["--namespace"; "ns1"]
  = Some (UnsupportedOp (Errorf "context name is required when using -n flag")).
Proof.
  apply (C5_namespace_needs_context true "kubectx" ["--namespace"; "ns1"] "ns1" 0);
    solve [reflexivity | discriminate].
Defined.

(** C6, as stated, fails: a context name is any string, and a name that reads
    as an option is not resolved to a switch.  [-h] gives Help in both
    positions; [-prod] gives Unsupported in both; [new=old] gives a Rename that
    drops the namespace; and [-d] gives a different operation in each position. *)
Lemma C6_option_like_names :
  parseArgs false "kubectx" ["-n"; "ns1"; "-h"] = Some HelpOp
  /\ parseArgs false "kubectx" ["-h"; "-n"; "ns1"] = Some HelpOp
  /\ parseArgs false "kubectx" ["-prod"; "-n"; "ns1"]
     = Some (UnsupportedOp (Errorf "unsupported option '-prod'"))
  /\ parseArgs false "kubectx" ["new=old"; "-n"; "ns1"] = Some (RenameOp "new" "old")
  /\ parseArgs false "kubectx" ["-n"; "ns1"; "-d"]
     = Some (UnsupportedOp (Errorf "unsupported option '-d'"))
  /\ parseArgs false "kubectx" ["-d"; "-n"; "ns1"] = Some (DeleteOp ["-n"; "ns1"]).
Proof. repeat split; reflexivity. Qed.

(** C6, amended: for every token c that the resolver takes for a context name
    (not in rename syntax, and not starting with a dash unless it is the dash
    alone) and every value n, the namespace flag before c and the namespace
    flag after c both resolve to Switch with target c and namespace n; only
    the first flag is consumed, so tokens left besides c, a repeated flag
    among them, make the sequence one of too many arguments. *)
Theorem C6_flag_position_irrelevant
        (interactive : bool) (self flag c n : string) :
  isNamespaceFlag flag = true -> isSwitchTarget c = true ->
  parseArgs interactive self [flag; n; c] = Some (SwitchOp c n)
  /\ parseArgs interactive self [c; flag; n] = Some (SwitchOp c n)
  /\ (forall extra more,
         parseArgs interactive self (c :: flag :: n :: extra :: more)
         = Some (UnsupportedOp (Errorf "too many arguments")))
  /\ (forall extra more,
         parseArgs interactive self (flag :: n :: extra :: more ++ [c])%list
         = Some (UnsupportedOp (Errorf "too many arguments"))).
Proof.
  intros Hflag Hc. split; [|split; [|split]].
  - by apply parse_flag_then_target.
  - by apply parse_target_then_flag.
  - intros extra more. by apply parse_target_flag_more.
  - intros extra more. by apply parse_flag_more_target.
Qed.

Lemma C6_flag_position_irrelevant_witness :
  parseArgs false "kubectx" ["--namespace"; "ns1"; "ctx1"] = Some (SwitchOp "ctx1" "ns1")
  /\ parseArgs false "kubectx" ["ctx1"; "--namespace"; "ns1"] = Some (SwitchOp "ctx1" "ns1")
  /\ parseArgs false "kubectx" ["ctx1"; "--namespace"; "ns1"; "-n"; "ns2"]
     = Some (UnsupportedOp (Errorf "too many arguments")).
Proof.
  destruct (C6_flag_position_irrelevant false "kubectx" "--namespace" "ctx1" "ns1"
              eq_refl eq_refl) as (Hbefore & Hafter & Hmore & _).
  split; [exact Hbefore|]. split; [exact Hafter|]. exact (Hmore "-n" ["ns2"]).
Defined.

(** C7, as stated, fails: on Windows the context names [a:b] and [a__b] are
    different and get the same file name, hence the same state file. *)
Lemma C7_colon_collision :
  "a:b" <> "a__b"
  /\ fileName true "a:b" = fileName true "a__b"
  /\ isWindows w_windows = true
  /\ NSFile_path (NewNSFile "a:b" w_windows) w_windows
     = NSFile_path (NewNSFile "a__b" w_windows) w_windows.
Proof. split; [discriminate|]. repeat split; reflexivity. Qed.

(** C7, amended: off Windows the file name is the context name itself; on
    Windows every colon is replaced by two underscores, which leaves no colon
    in the file name, and on context names without an underscore this is
    reversible, hence injective. *)
Theorem C7_file_name_escaping :
  (forall ctx, fileName false ctx = ctx)
  /\ (forall ctx, hasChar ":"%char (fileName true ctx) = false)
  /\ (forall ctx, hasChar "_"%char ctx = false -> unescape (fileName true ctx) = ctx)
  /\ (forall a b, hasChar "_"%char a = false -> hasChar "_"%char b = false ->
                  fileName true a = fileName true b -> a = b).
Proof.
  split; [|split; [|split]].
  - intros ctx. reflexivity.
  - intros ctx. apply ReplaceAll_no_colon.
  - intros ctx Hctx. by apply unescape_ReplaceAll.
  - intros a b Ha Hb Heq.
    rewrite <- (unescape_ReplaceAll a Ha), <- (unescape_ReplaceAll b Hb).
    unfold fileName in Heq. by rewrite Heq.
Qed.

Lemma C7_file_name_escaping_witness :
  unescape (fileName true "arn:aws:eks:eu-west-1:cluster/prod")
  = "arn:aws:eks:eu-west-1:cluster/prod".
Proof.
  apply (proj1 (proj2 (proj2 C7_file_name_escaping))). reflexivity.
Defined.

(** C8: argument resolution is total and deterministic.  For every token
    sequence [parseArgs] returns an operation (no index or slice goes out of
    range and the scan ends), that operation is the only one it returns for
    the same terminal answer and program name; the program name shows only in
    the [SelfCmd] of the two interactive operations, so the variant never
    depends on it and no other operation does at all. *)
Theorem C8_parseArgs_total_deterministic
        (interactive : bool) (self : string) (argv : list string) :
  exists op,
    parseArgs interactive self argv = Some op
    /\ (forall op', parseArgs interactive self argv = Some op' -> op' = op)
    /\ (forall self', exists op',
           parseArgs interactive self' argv = Some op'
           /\ variant op' = variant op
           /\ (variant op = VInteractiveSwitch \/ variant op = VInteractiveDelete
               \/ op' = op)).
Proof.
  exists (resolve interactive self argv). split; [apply parseArgs_resolve|]. split.
  - intros op'. rewrite parseArgs_resolve. congruence.
  - intros self'. exists (resolve interactive self' argv).
    split; [apply parseArgs_resolve|]. split; [apply resolve_variant|].
    apply resolve_self.
Qed.

(** C9: when the state file of an [NSFile] does not exist, [Load] succeeds
    with the empty string and changes nothing. *)
Theorem C9_load_missing_file (f : NSFile) (w : World) :
  files w !! NSFile_path f w = None -> NSFile_Load f w = (Ok "", w).
Proof.
  intros Hnone. unfold NSFile_Load, ioutil_ReadFile. rewrite Hnone. reflexivity.
Qed.

Lemma C9_load_missing_file_witness :
  NSFile_Load (NewNSFile "dev" w_two) w_two = (Ok "", w_two).
Proof. apply (C9_load_missing_file (NewNSFile "dev" w_two) w_two). reflexivity. Defined.

(** C10, as stated, fails at the empty value: [- -n ""] resolves to a switch
    with target [-] and empty namespace, and running it swaps back to [prod]
    and leaves the namespace of [prod] as it was. *)
Lemma C10_empty_namespace_only_swaps :
  parseArgs false "kubectx" ["-"; "-n"; ""] = Some (SwitchOp "-" "")
  /\ fst (SwitchOp_Run "-" "" w_two) = Ok tt
  /\ activeContext (snd (SwitchOp_Run "-" "" w_two)) = "prod"
  /\ savedNamespace "prod" w_two = Some "team-b"
  /\ savedNamespace "prod" (snd (SwitchOp_Run "-" "" w_two)) = Some "team-b".
Proof. vm_compute. repeat split; reflexivity. Qed.

(** C10, amended: for every value n the tokens [-], [-n], n resolve to the
    switch operation with target [-] and namespace n; for every non-empty n,
    when no collaborator call fails, the previous-context record holds an
    existing context p and the cluster has the namespace, running that
    operation succeeds, leaves p active and n recorded as the namespace of p. *)
Theorem C10_swap_back_with_namespace :
  (forall interactive self n,
      parseArgs interactive self ["-"; "-n"; n] = Some (SwitchOp "-" n))
  /\ (forall w kc p n cur,
         n <> "" -> faults w = no_faults ->
         previousContextRecord w = Some p -> p <> "" ->
         kubeconfig_file w = Some kc -> contexts kc !! p = Some cur ->
         fst (namespaceExists n (mkKubeconfig (contexts kc) p, w)) = Ok true ->
         exists w',
           SwitchOp_Run "-" n w = (Ok tt, w')
           /\ activeContext w' = p /\ savedNamespace p w' = Some n).
Proof.
  split.
  - intros interactive self n. by apply parse_target_then_flag.
  - apply SwitchOp_Run_swap_namespace.
Qed.

Lemma C10_swap_back_with_namespace_witness :
  parseArgs false "kubectx" ["-"; "-n"; "ns1"] = Some (SwitchOp "-" "ns1")
  /\ exists w',
       SwitchOp_Run "-" "ns1" w_two = (Ok tt, w')
       /\ activeContext w' = "prod" /\ savedNamespace "prod" w' = Some "ns1".
Proof.
  destruct C10_swap_back_with_namespace as (Hparse & Hrun). split.
  - apply Hparse.
  - apply (Hrun w_two kc_two "prod" "ns1" "team-b"); solve [reflexivity | discriminate].
Defined.

(** * Further properties of the code *)

(** ** Argument resolution *)

Lemma findNamespaceFlag_none l :
  Forall (fun a => isNamespaceFlag a = false) l -> findNamespaceFlag l = None.
Proof.
  induction 1 as [|a l Ha _ IH]; simpl; [reflexivity|]. by rewrite Ha, IH.
Qed.

Lemma findNamespaceFlag_first pre flag post :
  Forall (fun a => isNamespaceFlag a = false) pre -> isNamespaceFlag flag = true ->
  findNamespaceFlag (pre ++ flag :: post)%list = Some (pre, post).
Proof.
  intros Hpre Hflag. induction Hpre as [|a l Ha _ IH]; simpl.
  - by rewrite Hflag.
  - by rewrite Ha, IH.
Qed.

Lemma findNamespaceFlag_before l pre post :
  findNamespaceFlag l = Some (pre, post) ->
  Forall (fun a => isNamespaceFlag a = false) pre.
Proof.
  revert pre post. induction l as [|a l IH]; intros pre post H; simpl in H; [discriminate|].
  destruct (isNamespaceFlag a) eqn:Ha.
  - injection H as <- <-. constructor.
  - destruct (findNamespaceFlag l) as [[p q]|] eqn:E; [|discriminate].
    injection H as <- <-. constructor; [assumption|]. by apply (IH p q).
Qed.

Lemma classify_cases v namespace :
  classify v namespace = HelpOp \/ classify v namespace = VersionOp
  \/ classify v namespace = CurrentOp \/ classify v namespace = UnsetOp
  \/ (exists new old, parseRenameSyntax v = Some (new, old)
                      /\ classify v namespace = RenameOp new old)
  \/ classify v namespace = UnsupportedOp (Errorf ("unsupported option '" ++ v ++ "'"))
  \/ (isSwitchTarget v = true /\ classify v namespace = SwitchOp v namespace).
Proof.
  unfold classify, isSwitchTarget.
  destruct ((v =? "--help")%string || (v =? "-h")%string); [auto|].
  destruct ((v =? "--version")%string || (v =? "-V")%string); [auto|].
  destruct ((v =? "--current")%string || (v =? "-c")%string); [auto 6|].
  destruct ((v =? "--unset")%string || (v =? "-u")%string); [auto 6|].
  destruct (parseRenameSyntax v) as [[new old]|].
  { do 4 right. left. exists new, old. auto. }
  destruct (String.prefix "-" v && negb (v =? "-")%string); auto 10.
Qed.

Lemma resolve_not_delete interactive self a0 rest :
  (a0 =? "-d")%string = false ->
  resolve interactive self (a0 :: rest)
  = match findNamespaceFlag (a0 :: rest) with
    | None => afterScan interactive self (a0 :: rest) ""
    | Some (_, []) => UnsupportedOp (Errorf "'-n' requires a namespace argument")
    | Some (pre, v :: post) => afterScan interactive self (pre ++ post)%list v
    end.
Proof. intros H. unfold resolve. by rewrite H. Qed.

Lemma not_delete_head (a0 : string) (rest : list string) :
  head (a0 :: rest) <> Some "-d" -> (a0 =? "-d")%string = false.
Proof.
  simpl. intros H. destruct (a0 =? "-d")%string eqn:E; [|reflexivity].
  apply String.eqb_eq in E. subst. contradiction.
Qed.

Lemma classify_not_listing v namespace :
  classify v namespace <> ListOp
  /\ forall s, classify v namespace <> InteractiveSwitchOp s.
Proof.
  destruct (classify_cases v namespace) as [E|[E|[E|[E|[(x & y & _ & E)|[E|[_ E]]]]]]];
    rewrite E; split; try intros s; discriminate.
Qed.

Lemma classify_drops_namespace v n :
  isSwitchTarget v = false -> classify v n = classify v "".
Proof.
  unfold classify, isSwitchTarget. intros Hv.
  destruct ((v =? "--help")%string || (v =? "-h")%string); [reflexivity|].
  destruct ((v =? "--version")%string || (v =? "-V")%string); [reflexivity|].
  destruct ((v =? "--current")%string || (v =? "-c")%string); [reflexivity|].
  destruct ((v =? "--unset")%string || (v =? "-u")%string); [reflexivity|].
  destruct (parseRenameSyntax v) as [[new old]|]; [reflexivity|].
  destruct (String.prefix "-" v && negb (v =? "-")%string); [reflexivity|discriminate].
Qed.

(** X1: the resolver gives a Delete operation exactly for the sequences that
    start with [-d] and go on with at least one token, and the operation
    carries those tokens as they are, namespace flags and duplicates included. *)
Theorem X_delete_iff (interactive : bool) (self : string) (argv cs : list string) :
  parseArgs interactive self argv = Some (DeleteOp cs)
  <-> argv = "-d" :: cs /\ cs <> [].
Proof.
  rewrite parseArgs_resolve. split.
  - unfold resolve. destruct argv as [|a0 rest].
    { destruct interactive; discriminate. }
    destruct (a0 =? "-d")%string eqn:Ed.
    + apply String.eqb_eq in Ed. subst a0. destruct rest as [|b rest].
      * destruct interactive; discriminate.
      * intros [= <-]. split; [reflexivity|discriminate].
    + assert (Hafter : forall r ns, afterScan interactive self r ns <> DeleteOp cs).
      { intros r ns. unfold afterScan. destruct r as [|x [|y l]].
        - destruct (negb (ns =? "")%string); [discriminate|destruct interactive; discriminate].
        - destruct (classify_cases x ns) as [H|[H|[H|[H|[(n & o & _ & H)|[H|[_ H]]]]]]];
            rewrite H; discriminate.
        - discriminate. }
      destruct (findNamespaceFlag (a0 :: rest)) as [[pre [|v post]]|].
      * discriminate.
      * intros H. exfalso. injection H as H. exact (Hafter (pre ++ post)%list v H).
      * intros H. exfalso. injection H as H. exact (Hafter (a0 :: rest) "" H).
  - intros [-> Hcs]. simpl. destruct cs; [contradiction|reflexivity].
Qed.

(** X2: when the first namespace flag of a sequence that does not start with
    [-d] is its last token, the resolver returns Unsupported, whatever comes
    before the flag. *)
Theorem X_flag_without_value
        (interactive : bool) (self : string) (pre : list string) (flag : string) :
  Forall (fun a => isNamespaceFlag a = false) pre ->
  head pre <> Some "-d" -> isNamespaceFlag flag = true ->
  parseArgs interactive self (pre ++ [flag])%list
  = Some (UnsupportedOp (Errorf "'-n' requires a namespace argument")).
Proof.
  intros Hpre Hhead Hflag. rewrite parseArgs_resolve.
  pose proof (findNamespaceFlag_first pre flag [] Hpre Hflag) as Hfind.
  destruct pre as [|a0 pre]; simpl app in *.
  - rewrite resolve_not_delete by (by apply isNamespaceFlag_not_delete).
    by rewrite Hfind.
  - rewrite resolve_not_delete by (by apply (not_delete_head a0 pre)).
    by rewrite Hfind.
Qed.

Lemma X_flag_without_value_witness :
  parseArgs false "kubectx" ["ctx1"; "ctx2"; "--namespace"]
  = Some (UnsupportedOp (Errorf "'-n' requires a namespace argument")).
Proof.
  apply (X_flag_without_value false "kubectx" ["ctx1"; "ctx2"] "--namespace").
  - repeat constructor.
  - discriminate.
  - reflexivity.
Defined.

(** X3: two or more tokens without a namespace flag, the first not [-d], are
    too many arguments, option tokens such as [--help] among them or not. *)
Theorem X_too_many_plain
        (interactive : bool) (self a b : string) (rest : list string) :
  Forall (fun t => isNamespaceFlag t = false) (a :: b :: rest) -> a <> "-d" ->
  parseArgs interactive self (a :: b :: rest)
  = Some (UnsupportedOp (Errorf "too many arguments")).
Proof.
  intros Hplain Ha. rewrite parseArgs_resolve.
  rewrite resolve_not_delete.
  - rewrite (findNamespaceFlag_none _ Hplain). reflexivity.
  - destruct (a =? "-d")%string eqn:E; [|reflexivity].
    apply String.eqb_eq in E. contradiction.
Qed.

Lemma X_too_many_plain_witness :
  parseArgs false "kubectx" ["--help"; "ctx1"]
  = Some (UnsupportedOp (Errorf "too many arguments")).
Proof.
  apply (X_too_many_plain false "kubectx" "--help" "ctx1" []).
  - repeat constructor.
  - discriminate.
Defined.

(** X4: when two or more tokens are left around the first namespace flag and
    its value, the sequence is one of too many arguments; what follows the
    value is kept as it is, further namespace flags included. *)
Theorem X_too_many_arguments
        (interactive : bool) (self : string) (pre : list string) (flag v : string)
        (post : list string) :
  Forall (fun a => isNamespaceFlag a = false) pre ->
  head pre <> Some "-d" -> isNamespaceFlag flag = true ->
  (2 <= List.length (pre ++ post))%nat ->
  parseArgs interactive self (pre ++ flag :: v :: post)%list
  = Some (UnsupportedOp (Errorf "too many arguments")).
Proof.
  intros Hpre Hhead Hflag Hlen. rewrite parseArgs_resolve.
  pose proof (findNamespaceFlag_first pre flag (v :: post) Hpre Hflag) as Hfind.
  assert (Hafter : afterScan interactive self (pre ++ post)%list v
                   = UnsupportedOp (Errorf "too many arguments")).
  { unfold afterScan. destruct (pre ++ post)%list as [|x [|y l]]; simpl in Hlen;
      [lia|lia|reflexivity]. }
  destruct pre as [|a0 pre]; simpl app in *.
  - rewrite resolve_not_delete by (by apply isNamespaceFlag_not_delete).
    rewrite Hfind. simpl app. by rewrite Hafter.
  - rewrite resolve_not_delete by (by apply (not_delete_head a0 pre)).
    rewrite Hfind. simpl app. by rewrite Hafter.
Qed.

Lemma X_too_many_arguments_witness :
  parseArgs false "kubectx" ["ctx1"; "-n"; "ns1"; "ctx2"]
  = Some (UnsupportedOp (Errorf "too many arguments")).
Proof.
  apply (X_too_many_arguments false "kubectx" ["ctx1"] "-n" "ns1" ["ctx2"]).
  - repeat constructor.
  - discriminate.
  - reflexivity.
  - simpl. lia.
Defined.

(** X5: a Switch operation only ever names a token of the command line that
    is not in rename syntax and does not start with a dash (the dash alone
    apart), and its namespace is empty or the token right after the first
    namespace flag. *)
Theorem X_switch_operation_origin
        (interactive : bool) (self : string) (argv : list string) (t ns : string) :
  parseArgs interactive self argv = Some (SwitchOp t ns) ->
  In t argv
  /\ parseRenameSyntax t = None
  /\ (String.prefix "-" t = false \/ t = "-")
  /\ (ns = ""
      \/ exists pre flag post,
           argv = (pre ++ flag :: ns :: post)%list /\ isNamespaceFlag flag = true
           /\ Forall (fun a => isNamespaceFlag a = false) pre).
Proof.
  rewrite parseArgs_resolve. intros Hres. injection Hres as Hres.
  assert (Hclass : forall v n, classify v n = SwitchOp t ns ->
            v = t /\ n = ns /\ parseRenameSyntax t = None
            /\ (String.prefix "-" t = false \/ t = "-")).
  { intros v n H.
    destruct (classify_cases v n) as [E|[E|[E|[E|[(x & y & _ & E)|[E|[Ht E]]]]]]];
      rewrite E in H; try discriminate H.
    injection H as -> ->. repeat split; try reflexivity.
    - unfold isSwitchTarget in Ht. by destruct (parseRenameSyntax t).
    - unfold isSwitchTarget in Ht. destruct (parseRenameSyntax t); [discriminate|].
      destruct (String.prefix "-" t); [|by left].
      destruct (t =? "-")%string eqn:Edash;
        [apply String.eqb_eq in Edash; by right|discriminate]. }
  assert (Hafter : forall r n, afterScan interactive self r n = SwitchOp t ns ->
            r = [t] /\ n = ns /\ parseRenameSyntax t = None
            /\ (String.prefix "-" t = false \/ t = "-")).
  { intros r n. unfold afterScan. destruct r as [|x [|y l]].
    - destruct (negb (n =? "")%string); [discriminate|destruct interactive; discriminate].
    - intros H. destruct (Hclass x n H) as (-> & -> & H1 & H2). auto.
    - discriminate. }
  unfold resolve in Hres. destruct argv as [|a0 rest].
  { destruct interactive; discriminate. }
  destruct (a0 =? "-d")%string.
  { destruct rest; [destruct interactive|]; discriminate. }
  destruct (findNamespaceFlag (a0 :: rest)) as [[pre [|v post]]|] eqn:Efind.
  - discriminate.
  - destruct (Hafter _ _ Hres) as (Hr & -> & H1 & H2).
    destruct (findNamespaceFlag_split _ _ _ Efind) as (flag & Hflag & Hargv).
    pose proof (findNamespaceFlag_before _ _ _ Efind) as Hpre.
    rewrite Hargv. repeat split; try assumption.
    + assert (Hin : In t (pre ++ post)%list) by (rewrite Hr; by left).
      apply in_app_iff in Hin. apply in_app_iff.
      destruct Hin as [Hin|Hin]; [by left|right; right; by right].
    + right. exists pre, flag, post. auto.
  - destruct (Hafter _ _ Hres) as (Hr & <- & H1 & H2).
    rewrite Hr. repeat split; try assumption; [by left|by left].
Qed.

Lemma X_switch_operation_origin_witness :
  In "ctx1" ["ctx1"; "-n"; "ns1"]
  /\ parseRenameSyntax "ctx1" = None
  /\ (String.prefix "-" "ctx1" = false \/ "ctx1" = "-")
  /\ ("ns1" = ""
      \/ exists pre flag post,
           ["ctx1"; "-n"; "ns1"] = (pre ++ flag :: "ns1" :: post)%list
           /\ isNamespaceFlag flag = true
           /\ Forall (fun a => isNamespaceFlag a = false) pre).
Proof.
  apply (X_switch_operation_origin false "kubectx" ["ctx1"; "-n"; "ns1"] "ctx1" "ns1").
  reflexivity.
Defined.

(** X6: the resolver falls back to listing the contexts (the picker on an
    interactive terminal) exactly for the empty sequence and for a namespace
    flag followed by an empty value and nothing else. *)
Theorem X_listing_iff (interactive : bool) (self : string) (argv : list string) :
  parseArgs interactive self argv
  = Some (if interactive then InteractiveSwitchOp self else ListOp)
  <-> argv = [] \/ exists flag, isNamespaceFlag flag = true /\ argv = [flag; ""].
Proof.
  rewrite parseArgs_resolve. split.
  - intros Hres. injection Hres as Hres.
    assert (Hafter : forall r n,
              afterScan interactive self r n
              = (if interactive then InteractiveSwitchOp self else ListOp) ->
              r = [] /\ n = "").
    { intros r n. unfold afterScan. destruct r as [|x [|y l]].
      - destruct (n =? "")%string eqn:E.
        + apply String.eqb_eq in E. auto.
        + simpl. destruct interactive; discriminate.
      - intros H. exfalso. destruct (classify_not_listing x n) as [H1 H2].
        destruct interactive; [by apply (H2 self)|by apply H1].
      - destruct interactive; discriminate. }
    unfold resolve in Hres. destruct argv as [|a0 rest]; [by left|].
    destruct (a0 =? "-d")%string.
    { destruct rest; destruct interactive; discriminate. }
    destruct (findNamespaceFlag (a0 :: rest)) as [[pre [|v post]]|] eqn:Efind.
    + destruct interactive; discriminate.
    + destruct (Hafter _ _ Hres) as [Hr ->].
      destruct (findNamespaceFlag_split _ _ _ Efind) as (flag & Hflag & Hargv).
      apply app_eq_nil in Hr as [-> ->]. right. exists flag. auto.
    + destruct (Hafter _ _ Hres) as [Hr _]. discriminate Hr.
  - intros [->|(flag & Hflag & ->)]; [reflexivity|].
    rewrite resolve_not_delete by (by apply isNamespaceFlag_not_delete).
    simpl. by rewrite Hflag.
Qed.

(** X7: when the token beside the namespace flag is not taken for a context
    name (an option, a rename, an unknown option), the flag and its value
    change nothing: the sequence resolves as the token alone does. *)
Theorem X_namespace_dropped_for_options
        (interactive : bool) (self flag n v : string) :
  isNamespaceFlag flag = true -> isSwitchTarget v = false ->
  v <> "-d" -> isNamespaceFlag v = false ->
  parseArgs interactive self [v; flag; n] = parseArgs interactive self [v]
  /\ parseArgs interactive self [flag; n; v] = parseArgs interactive self [v].
Proof.
  intros Hflag Hv Hd Hplain. rewrite !parseArgs_resolve.
  assert (Ed : (v =? "-d")%string = false).
  { destruct (v =? "-d")%string eqn:E; [|reflexivity].
    apply String.eqb_eq in E. contradiction. }
  split; f_equal.
  - rewrite !resolve_not_delete by assumption. simpl. rewrite Hplain, Hflag. simpl.
    by apply classify_drops_namespace.
  - rewrite resolve_not_delete by (by apply isNamespaceFlag_not_delete).
    rewrite resolve_not_delete by assumption. simpl. rewrite Hplain, Hflag. simpl.
    by apply classify_drops_namespace.
Qed.

Lemma X_namespace_dropped_for_options_witness :
  parseArgs false "kubectx" ["--current"; "-n"; "ns1"] = parseArgs false "kubectx" ["--current"]
  /\ parseArgs false "kubectx" ["-n"; "ns1"; "--current"]
     = parseArgs false "kubectx" ["--current"].
Proof.
  apply (X_namespace_dropped_for_options false "kubectx" "-n" "ns1" "--current");
    solve [reflexivity | discriminate].
Defined.

(** ** The context switch engine *)

Lemma switchContext_cases name w :
  (exists e, switchContext name w = (Err e, w))
  \/ exists kc ns,
       kubeconfig_file w = Some kc /\ contexts kc !! name = Some ns
       /\ (switchContext name w = (Ok name, switched name kc w)
           \/ (current_context kc <> name
               /\ switchContext name w
                  = (Err (Wrap (Foreign EOTHER) "failed to save previous context name"),
                     set_kubeconfig_file (mkKubeconfig (contexts kc) name) w))).
Proof.
  unfold switchContext, switched. unfold_monad. unfold_store.
  destruct (state_file_fails (faults w)); [left; eauto|]. simpl.
  destruct (kubeconfig_file w) as [kc|] eqn:Hkc; [|left; eauto]. simpl.
  destruct (contexts kc !! name) as [ns|] eqn:Hctx; [|left; eauto]. simpl.
  destruct (modify_fails (faults w)); [left; eauto|]. simpl.
  destruct (save_fails (faults w)); [left; eauto|]. simpl.
  right. exists kc, ns. split; [reflexivity|]. split; [exact Hctx|].
  destruct (current_context kc =? name)%string eqn:E; simpl; [by left|].
  destruct (write_fails (faults w)); simpl; [|by left].
  right. split; [|reflexivity]. intros Heq. rewrite Heq, String.eqb_refl in E. discriminate.
Qed.

Lemma swapContext_cases w :
  (exists e, swapContext w = (Err e, w))
  \/ exists p, previousContextRecord w = Some p /\ p <> ""
               /\ swapContext w = switchContext p w.
Proof.
  unfold swapContext, previousContextRecord. unfold_monad. unfold_store.
  destruct (state_file_fails (faults w)); [left; eauto|]. simpl.
  destruct (files w !! prev_ctx_path w) as [p|]; simpl; [|left; eauto].
  destruct (read_fails (faults w)); simpl; [left; eauto|].
  destruct (p =? "")%string eqn:E; [left; eauto|].
  right. exists p. split; [reflexivity|]. split; [|reflexivity].
  intros ->. discriminate.
Qed.

Lemma switched_stderr name kc w : stderr (switched name kc w) = stderr w.
Proof. unfold switched. destruct (current_context kc =? name)%string; reflexivity. Qed.

Lemma switched_static name kc w :
  environ (switched name kc w) = environ w /\ k8s (switched name kc w) = k8s w.
Proof. unfold switched. destruct (current_context kc =? name)%string; auto. Qed.

Lemma switchContext_namespaces name ctx w :
  savedNamespace ctx (snd (switchContext name w)) = savedNamespace ctx w.
Proof.
  unfold switchContext. unfold_monad. unfold_store. unfold savedNamespace.
  destruct (state_file_fails (faults w)); [reflexivity|]. simpl.
  destruct (kubeconfig_file w) as [kc|] eqn:Hkc; simpl; [|by rewrite Hkc].
  destruct (contexts kc !! name); simpl; [|by rewrite Hkc].
  destruct (modify_fails (faults w)); simpl; [by rewrite Hkc|].
  destruct (save_fails (faults w)); simpl; [by rewrite Hkc|].
  destruct (current_context kc =? name)%string; simpl; [reflexivity|].
  destruct (write_fails (faults w)); reflexivity.
Qed.

Lemma swapContext_namespaces ctx w :
  savedNamespace ctx (snd (swapContext w)) = savedNamespace ctx w.
Proof.
  unfold swapContext. unfold_monad. unfold_store.
  destruct (state_file_fails (faults w)); [reflexivity|]. simpl.
  destruct (files w !! prev_ctx_path w) as [p|]; simpl; [|reflexivity].
  destruct (read_fails (faults w)); simpl; [reflexivity|].
  destruct (p =? "")%string; [reflexivity|]. apply switchContext_namespaces.
Qed.

(** X8: with no previous-context file, or an empty one, [swapContext] fails
    with [NoHistory] and changes nothing, whatever the configuration holds. *)
Theorem X_swap_without_history (w : World) :
  state_file_fails (faults w) = false ->
  previousContextRecord w = None
  \/ (previousContextRecord w = Some "" /\ read_fails (faults w) = false) ->
  swapContext w = (Err NoHistory, w).
Proof.
  intros Hstate Hrec. unfold previousContextRecord in Hrec.
  unfold swapContext. unfold_monad. unfold_store. rewrite Hstate. simpl.
  destruct Hrec as [Hrec|[Hrec Hread]]; rewrite Hrec; [reflexivity|].
  rewrite Hread. reflexivity.
Qed.

Lemma X_swap_without_history_witness :
  swapContext w_offline = (Err NoHistory, w_offline).
Proof.
  apply (X_swap_without_history w_offline); [reflexivity|]. left. reflexivity.
Defined.

(** X9: when the previous-context file names a context that the
    configuration no longer holds, [swapContext] fails with [NotFound] for
    that name and changes nothing. *)
Theorem X_swap_to_vanished_context (w : World) (kc : Kubeconfig) (p : string) :
  state_file_fails (faults w) = false -> read_fails (faults w) = false ->
  previousContextRecord w = Some p -> p <> "" ->
  kubeconfig_file w = Some kc -> contexts kc !! p = None ->
  swapContext w = (Err (NotFound p), w).
Proof.
  intros Hstate Hread Hrec Hp Hkc Hctx. unfold previousContextRecord in Hrec.
  unfold swapContext. unfold_monad. unfold_store. rewrite Hstate. simpl.
  rewrite Hrec, Hread. simpl.
  destruct (p =? "")%string eqn:E; [apply String.eqb_eq in E; contradiction|].
  rewrite (switchContext_unknown w p kc Hkc Hctx), Hstate. reflexivity.
Qed.

Lemma X_swap_to_vanished_context_witness :
  swapContext w_stale = (Err (NotFound "staging"), w_stale).
Proof.
  apply (X_swap_to_vanished_context w_stale kc_two "staging");
    solve [reflexivity | discriminate].
Defined.

(** X10: when [switchContext] succeeds it returns the name it was given, that
    name was a context of the configuration, and the saved configuration is
    the old one with only the active-context pointer changed to it. *)
Theorem X_switchContext_success (w w' : World) (name r : string) :
  switchContext name w = (Ok r, w') ->
  r = name /\ activeContext w' = name
  /\ exists kc ns,
       kubeconfig_file w = Some kc /\ contexts kc !! name = Some ns
       /\ kubeconfig_file w' = Some (mkKubeconfig (contexts kc) name).
Proof.
  intros Hrun.
  destruct (switchContext_cases name w) as [[e He]|(kc & ns & Hkc & Hctx & [Hok|[_ Herr]])].
  - rewrite He in Hrun. discriminate.
  - rewrite Hok in Hrun. injection Hrun as <- <-.
    split; [reflexivity|]. unfold activeContext. rewrite switched_kubeconfig.
    split; [reflexivity|]. exists kc, ns. auto.
  - rewrite Herr in Hrun. discriminate.
Qed.

Lemma X_switchContext_success_witness :
  "prod" = "prod" /\ activeContext (snd (switchContext "prod" w_two)) = "prod"
  /\ exists kc ns,
       kubeconfig_file w_two = Some kc /\ contexts kc !! "prod" = Some ns
       /\ kubeconfig_file (snd (switchContext "prod" w_two))
          = Some (mkKubeconfig (contexts kc) "prod").
Proof.
  apply (X_switchContext_success w_two (snd (switchContext "prod" w_two)) "prod" "prod").
  vm_compute. reflexivity.
Defined.

(** X11: when [switchContext] fails, either nothing has changed, or the only
    step that failed is the write of the previous-context file: then the new
    context is already active in the saved configuration and no state file
    has changed. *)
Theorem X_switchContext_failure (w w' : World) (name : string) (e : error) :
  switchContext name w = (Err e, w') ->
  w' = w
  \/ (e = Wrap (Foreign EOTHER) "failed to save previous context name"
      /\ activeContext w' = name /\ files w' = files w).
Proof.
  intros Hrun.
  destruct (switchContext_cases name w) as [[e' He]|(kc & ns & Hkc & Hctx & [Hok|[_ Herr]])].
  - rewrite He in Hrun. injection Hrun as _ <-. by left.
  - rewrite Hok in Hrun. discriminate.
  - rewrite Herr in Hrun. injection Hrun as <- <-. right. auto.
Qed.

Lemma X_switchContext_failure_witness :
  snd (switchContext "prod" w_readonly) = w_readonly
  \/ (Wrap (Foreign EOTHER) "failed to save previous context name"
      = Wrap (Foreign EOTHER) "failed to save previous context name"
      /\ activeContext (snd (switchContext "prod" w_readonly)) = "prod"
      /\ files (snd (switchContext "prod" w_readonly)) = files w_readonly).
Proof.
  apply (X_switchContext_failure w_readonly (snd (switchContext "prod" w_readonly)) "prod").
  vm_compute. reflexivity.
Defined.

(** X12: switching twice in a row to the same context keeps the history of
    the first switch: the record still holds the context that was active
    before, and [swapContext] goes back to it. *)
Theorem X_repeated_switch_keeps_history (w : World) (kc : Kubeconfig) (A nsA nsC : string) :
  faults w = no_faults -> kubeconfig_file w = Some kc ->
  contexts kc !! A = Some nsA -> contexts kc !! current_context kc = Some nsC ->
  A <> current_context kc -> current_context kc <> "" ->
  exists w1 w2 w3,
    switchContext A w = (Ok A, w1) /\ switchContext A w1 = (Ok A, w2)
    /\ previousContextRecord w2 = Some (current_context kc)
    /\ swapContext w2 = (Ok (current_context kc), w3)
    /\ activeContext w3 = current_context kc.
Proof.
  intros Hf Hkc HA HC HAC HC0.
  set (C := current_context kc) in *.
  set (kcA := mkKubeconfig (contexts kc) A).
  set (w1 := switched A kc w). set (w2 := switched A kcA w1).
  set (w3 := switched C kcA w2).
  assert (H1 : faults w1 = no_faults) by (unfold w1; by rewrite switched_faults).
  assert (H2 : faults w2 = no_faults) by (unfold w2; by rewrite switched_faults).
  assert (K1 : kubeconfig_file w1 = Some kcA) by apply switched_kubeconfig.
  assert (K2 : kubeconfig_file w2 = Some kcA) by apply switched_kubeconfig.
  assert (R1 : previousContextRecord w1 = Some C).
  { apply (switched_record A kc w). fold C. congruence. }
  assert (R2 : previousContextRecord w2 = Some C).
  { unfold w2, switched. simpl. by rewrite String.eqb_refl. }
  exists w1, w2, w3. split; [|split; [|split; [|split]]].
  - by apply (switchContext_ok w A kc nsA).
  - by apply (switchContext_ok w1 A kcA nsA).
  - exact R2.
  - rewrite (swapContext_history w2 C H2 R2 HC0). by apply (switchContext_ok w2 C kcA nsC).
  - unfold activeContext, w3. by rewrite switched_kubeconfig.
Qed.

Lemma X_repeated_switch_keeps_history_witness :
  exists w1 w2 w3,
    switchContext "prod" w_two = (Ok "prod", w1)
    /\ switchContext "prod" w1 = (Ok "prod", w2)
    /\ previousContextRecord w2 = Some "dev"
    /\ swapContext w2 = (Ok "dev", w3)
    /\ activeContext w3 = "dev".
Proof.
  apply (X_repeated_switch_keeps_history w_two kc_two "prod" "team-b" "team-a");
    solve [reflexivity | discriminate].
Defined.

(** ** The namespace switch engine and its state files *)

Lemma switchNamespace_cases ctx ns force kc w :
  (exists e kc', switchNamespace ctx ns force (kc, w) = (Err e, (kc', w)))
  \/ exists cur,
       contexts kc !! ctx = Some cur
       /\ (force = false -> fst (namespaceExists ns (kc, w)) = Ok true)
       /\ let kc' := mkKubeconfig (<[ctx := ns]> (contexts kc)) (current_context kc) in
          (switchNamespace ctx ns force (kc, w)
           = (Ok ns, (kc', namespace_switched ctx ns cur kc w))
           \/ (cur <> ns
               /\ exists e,
                    switchNamespace ctx ns force (kc, w)
                    = (Err (Wrap e "failed to save the previous namespace to file"),
                       (kc', set_kubeconfig_file kc' w)))).
Proof.
  assert (Htail : forall cur, contexts kc !! ctx = Some cur ->
    let kc' := mkKubeconfig (<[ctx := ns]> (contexts kc)) (current_context kc) in
    let run :=
      bind (wrap ("failed to change to namespace " ++ dq ++ ns ++ dq) (kc_SetNamespace ctx ns))
        (fun _ => bind (wrap "failed to save kubeconfig file" kc_Save)
          (fun _ => bind (if negb (cur =? ns)%string
                          then wrap "failed to save the previous namespace to file"
                                    (liftW (NSFile_Save (NewNSFile ctx w) cur))
                          else ret tt)
            (fun _ => ret ns))) (kc, w) in
    (exists e kc0, run = (Err e, (kc0, w)))
    \/ run = (Ok ns, (kc', namespace_switched ctx ns cur kc w))
    \/ (cur <> ns
        /\ exists e, run = (Err (Wrap e "failed to save the previous namespace to file"),
                            (kc', set_kubeconfig_file kc' w)))).
  { intros cur Hctx. unfold namespace_switched, NSFile_Save. unfold_monad. unfold_store.
    simpl. rewrite Hctx.
    destruct (set_namespace_fails (faults w)); simpl; [left; eauto|].
    destruct (save_fails (faults w)); simpl; [left; eauto|].
    destruct (cur =? ns)%string eqn:E; simpl; [right; by left|].
    assert (Hne : cur <> ns) by (intros ->; rewrite String.eqb_refl in E; discriminate).
    destruct (mkdir_fails (faults w)); simpl; [right; right; eauto|].
    destruct (write_fails (faults w)); simpl; [right; right; eauto|].
    right. by left. }
  unfold switchNamespace. unfold_monad. unfold_store. simpl.
  destruct (contexts kc !! ctx) as [cur|] eqn:Hctx; simpl; [|left; eauto].
  destruct force; simpl.
  - destruct (Htail cur eq_refl) as [H|H]; [by left|].
    right. exists cur. split; [reflexivity|]. split; [discriminate|]. exact H.
  - rewrite (namespaceExists_run ns (kc, w)).
    destruct (fst (namespaceExists ns (kc, w))) as [[|]|e] eqn:Hex; simpl;
      [|left; eauto|left; eauto].
    destruct (Htail cur eq_refl) as [H|H]; [by left|].
    right. exists cur. split; [reflexivity|]. split; [reflexivity|]. exact H.
Qed.

Lemma namespace_switched_saved ctx ns cur kc w :
  kubeconfig_file (namespace_switched ctx ns cur kc w)
  = Some (mkKubeconfig (<[ctx := ns]> (contexts kc)) (current_context kc))
  /\ stderr (namespace_switched ctx ns cur kc w) = stderr w
  /\ faults (namespace_switched ctx ns cur kc w) = faults w.
Proof. unfold namespace_switched. destruct (cur =? ns)%string; auto. Qed.




(** X13: with [force] the cluster is not asked: when no collaborator call
    fails, the namespace of an existing context is switched and saved,
    whatever the cluster would have answered. *)
Theorem X_forced_namespace_switch (kc : Kubeconfig) (w : World) (ctx ns cur : string) :
  faults w = no_faults -> contexts kc !! ctx = Some cur ->
  exists w',
    switchNamespace ctx ns true (kc, w)
    = (Ok ns, (mkKubeconfig (<[ctx := ns]> (contexts kc)) (current_context kc), w'))
    /\ savedNamespace ctx w' = Some ns
    /\ k8s w' = k8s w.
Proof.
  intros Hf Hctx. unfold switchNamespace, NSFile_Save. unfold_monad. unfold_store.
  simpl. rewrite Hctx. simpl. rewrite Hctx, Hf. simpl. rewrite Hf. simpl.
  destruct (cur =? ns)%string; simpl.
  - eexists. split; [reflexivity|]. unfold savedNamespace. simpl.
    split; [apply lookup_insert_eq|reflexivity].
  - rewrite Hf. simpl. rewrite Hf. simpl.
    eexists. split; [reflexivity|]. unfold savedNamespace. simpl.
    split; [apply lookup_insert_eq|reflexivity].
Qed.

Lemma X_forced_namespace_switch_witness :
  exists w',
    switchNamespace "dev" "anything" true (kc_two, w_offline)
    = (Ok "anything",
       (mkKubeconfig (<["dev" := "anything"]> (contexts kc_two)) (current_context kc_two), w'))
    /\ savedNamespace "dev" w' = Some "anything"
    /\ k8s w' = k8s w_offline.
Proof.
  apply (X_forced_namespace_switch kc_two w_offline "dev" "anything" "team-a");
    reflexivity.
Defined.

(** X14: when [switchNamespace] succeeds it returns the namespace it was
    given, the context was one of the configuration, the configuration in
    memory and the saved one are the old one with only that context's
    namespace changed, and without [force] the cluster had the namespace. *)
Theorem X_switchNamespace_success
        (kc kc' : Kubeconfig) (w w' : World) (ctx ns r : string) (force : bool) :
  switchNamespace ctx ns force (kc, w) = (Ok r, (kc', w')) ->
  r = ns
  /\ kc' = mkKubeconfig (<[ctx := ns]> (contexts kc)) (current_context kc)
  /\ kubeconfig_file w' = Some kc'
  /\ is_Some (contexts kc !! ctx)
  /\ (force = false -> fst (namespaceExists ns (kc, w)) = Ok true).
Proof.
  intros Hrun.
  destruct (switchNamespace_cases ctx ns force kc w)
    as [(e & kc0 & He)|(cur & Hctx & Hex & [Hok|(_ & e & Herr)])].
  - rewrite He in Hrun. discriminate.
  - rewrite Hok in Hrun. injection Hrun as <- <- <-.
    destruct (namespace_switched_saved ctx ns cur kc w) as (Hsaved & _ & _).
    repeat split; try assumption; try reflexivity. by exists cur.
  - rewrite Herr in Hrun. discriminate.
Qed.

Lemma X_switchNamespace_success_witness :
  "ns1" = "ns1"
  /\ fst (snd (switchNamespace "dev" "ns1" false (kc_two, w_two)))
     = mkKubeconfig (<["dev" := "ns1"]> (contexts kc_two)) (current_context kc_two)
  /\ kubeconfig_file (snd (snd (switchNamespace "dev" "ns1" false (kc_two, w_two))))
     = Some (fst (snd (switchNamespace "dev" "ns1" false (kc_two, w_two))))
  /\ is_Some (contexts kc_two !! "dev")
  /\ (false = false -> fst (namespaceExists "ns1" (kc_two, w_two)) = Ok true).
Proof.
  apply (X_switchNamespace_success kc_two
           (fst (snd (switchNamespace "dev" "ns1" false (kc_two, w_two))))
           w_two (snd (snd (switchNamespace "dev" "ns1" false (kc_two, w_two))))
           "dev" "ns1" "ns1" false).
  vm_compute. reflexivity.
Defined.

(** X15: when [switchNamespace] fails, either the world is as before, or the
    only step that failed is the write of the previous-namespace file: then
    the new namespace is already in the saved configuration and no state
    file has changed. *)
Theorem X_switchNamespace_failure
        (kc kc' : Kubeconfig) (w w' : World) (ctx ns : string) (force : bool) (e : error) :
  switchNamespace ctx ns force (kc, w) = (Err e, (kc', w')) ->
  w' = w
  \/ (savedNamespace ctx w' = Some ns /\ files w' = files w
      /\ exists cause, e = Wrap cause "failed to save the previous namespace to file").
Proof.
  intros Hrun.
  destruct (switchNamespace_cases ctx ns force kc w)
    as [(e0 & kc0 & He)|(cur & Hctx & Hex & [Hok|(_ & e0 & Herr)])].
  - rewrite He in Hrun. injection Hrun as _ _ <-. by left.
  - rewrite Hok in Hrun. discriminate.
  - rewrite Herr in Hrun. injection Hrun as <- <- <-. right.
    unfold savedNamespace. simpl. split; [apply lookup_insert_eq|]. split; [reflexivity|].
    by exists e0.
Qed.

Lemma X_switchNamespace_failure_witness :
  snd (snd (switchNamespace "dev" "ns1" true (kc_two, w_readonly))) = w_readonly
  \/ (savedNamespace "dev" (snd (snd (switchNamespace "dev" "ns1" true (kc_two, w_readonly))))
      = Some "ns1"
      /\ files (snd (snd (switchNamespace "dev" "ns1" true (kc_two, w_readonly))))
         = files w_readonly
      /\ exists cause,
           Wrap (Foreign EOTHER) "failed to save the previous namespace to file"
           = Wrap cause "failed to save the previous namespace to file").
Proof.
  apply (X_switchNamespace_failure kc_two
           (fst (snd (switchNamespace "dev" "ns1" true (kc_two, w_readonly))))
           w_readonly
           (snd (snd (switchNamespace "dev" "ns1" true (kc_two, w_readonly))))
           "dev" "ns1" true).
  vm_compute. reflexivity.
Defined.



(** ** Running a switch operation *)

(** X17: running a switch to a name that is no context fails with [NotFound]
    wrapped as a failure to switch context and changes nothing; a namespace
    that was asked for is not looked at. *)
Theorem X_run_unknown_target (w : World) (kc : Kubeconfig) (target ns : string) :
  kubeconfig_file w = Some kc -> contexts kc !! target = None ->
  target <> "-" -> state_file_fails (faults w) = false ->
  SwitchOp_Run target ns w
  = (Err (Wrap (NotFound target) "failed to switch context"), w).
Proof.
  intros Hkc Hctx Htarget Hstate. unfold SwitchOp_Run.
  destruct (target =? "-")%string eqn:E; [apply String.eqb_eq in E; contradiction|].
  unfold bind, wrap.
  rewrite (switchContext_unknown w target kc Hkc Hctx), Hstate. reflexivity.
Qed.

Lemma X_run_unknown_target_witness :
  SwitchOp_Run "unknown-context" "ns1" w_two
  = (Err (Wrap (NotFound "unknown-context") "failed to switch context"), w_two).
Proof.
  apply (X_run_unknown_target w_two kc_two "unknown-context" "ns1");
    solve [reflexivity | discriminate].
Defined.

(** X18: running a switch to an existing context with a namespace that the
    cluster does not have fails with [NamespaceNotFound], and the context
    switch that came first stays: the context is active, its namespace as it
    was. *)
Theorem X_run_keeps_context_when_namespace_missing
        (w : World) (kc : Kubeconfig) (name ns cur : string) :
  faults w = no_faults -> kubeconfig_file w = Some kc ->
  contexts kc !! name = Some cur -> name <> "-" -> ns <> "" ->
  fst (namespaceExists ns (mkKubeconfig (contexts kc) name, w)) = Ok false ->
  exists w',
    SwitchOp_Run name ns w
    = (Err (Wrap (NamespaceNotFound ns) "failed to switch namespace"), w')
    /\ activeContext w' = name /\ savedNamespace name w' = Some cur.
Proof.
  intros Hf Hkc Hctx Hname Hns Habs.
  set (kc1 := mkKubeconfig (contexts kc) name). set (w1 := switched name kc w).
  assert (Hswitch : switchContext name w = (Ok name, w1))
    by (by apply (switchContext_ok w name kc cur)).
  assert (Hk1 : kubeconfig_file w1 = Some kc1) by apply switched_kubeconfig.
  assert (Habs1 : fst (namespaceExists ns (kc1, w1)) = Ok false).
  { rewrite <- Habs. destruct (switched_static name kc w) as [He Hk].
    apply namespaceExists_static; [exact He| |exact Hk].
    unfold w1. by rewrite switched_faults. }
  unfold SwitchOp_Run.
  destruct (name =? "-")%string eqn:E; [apply String.eqb_eq in E; contradiction|].
  rewrite (bind_ok _ _ w name w1 (wrap_ok _ _ _ _ _ Hswitch)).
  destruct (ns =? "")%string eqn:E'; [apply String.eqb_eq in E'; contradiction|].
  cbn [negb]. cbv iota. unfold with_kubeconfig.
  erewrite bind_ok; [|apply wrap_ok; unfold kc_Parse; simpl; rewrite Hk1; reflexivity].
  unfold bind, wrap at 1.
  rewrite (switchNamespace_absent kc1 w1 name ns cur Hctx Habs1). simpl.
  eexists. split; [reflexivity|].
  unfold activeContext, savedNamespace. rewrite Hk1. auto.
Qed.

Lemma X_run_keeps_context_when_namespace_missing_witness :
  exists w',
    SwitchOp_Run "prod" "unknown-ns" w_two
    = (Err (Wrap (NamespaceNotFound "unknown-ns") "failed to switch namespace"), w')
    /\ activeContext w' = "prod" /\ savedNamespace "prod" w' = Some "team-b".
Proof.
  apply (X_run_keeps_context_when_namespace_missing w_two kc_two "prod" "unknown-ns" "team-b");
    solve [reflexivity | discriminate].
Defined.

(** X19: running a switch operation whose namespace is empty never changes
    the namespace the saved configuration records for any context, whether
    the run succeeds or fails. *)
Theorem X_run_without_namespace_keeps_namespaces (w : World) (target ctx : string) :
  savedNamespace ctx (snd (SwitchOp_Run target "" w)) = savedNamespace ctx w.
Proof.
  unfold SwitchOp_Run. change (negb ("" =? "")%string) with false. cbv iota.
  unfold bind, wrap, printer_Success.
  destruct (target =? "-")%string.
  - pose proof (swapContext_namespaces ctx w) as Hstep.
    destruct (swapContext w) as [[newCtx|e] w1]; simpl in *; [|exact Hstep].
    destruct (print_fails (faults w1)); simpl; exact Hstep.
  - pose proof (switchContext_namespaces target ctx w) as Hstep.
    destruct (switchContext target w) as [[newCtx|e] w1]; simpl in *; [|exact Hstep].
    destruct (print_fails (faults w1)); simpl; exact Hstep.
Qed.

(** X20: when running a switch operation succeeds, the context asked for (for
    the target [-], the non-empty name in the previous-context file) is the
    active one, a non-empty namespace asked for is the one saved for that
    context, and exactly one message has been written. *)
Theorem X_run_success (w w' : World) (target ns : string) :
  SwitchOp_Run target ns w = (Ok tt, w') ->
  exists newCtx msg,
    (if (target =? "-")%string then previousContextRecord w = Some newCtx /\ newCtx <> ""
     else newCtx = target)
    /\ activeContext w' = newCtx
    /\ (ns <> "" -> savedNamespace newCtx w' = Some ns)
    /\ stderr w' = (stderr w ++ [msg])%list.
Proof.
  unfold SwitchOp_Run. intros Hrun.
  assert (Hswitch : forall name r w1,
            switchContext name w = (Ok r, w1) ->
            r = name /\ stderr w1 = stderr w
            /\ exists kc, kubeconfig_file w1 = Some (mkKubeconfig (contexts kc) name)
                          /\ is_Some (contexts kc !! name)).
  { intros name r w1 H.
    destruct (switchContext_cases name w) as [[e He]|(kc & n & Hkc & Hctx & [Hok|[_ Herr]])].
    - rewrite He in H. discriminate.
    - rewrite Hok in H. injection H as <- <-. split; [reflexivity|].
      split; [apply switched_stderr|]. exists kc. rewrite switched_kubeconfig. eauto.
    - rewrite Herr in H. discriminate. }
  assert (Hstep : exists newCtx w1 kc,
            (if (target =? "-")%string
             then previousContextRecord w = Some newCtx /\ newCtx <> ""
             else newCtx = target)
            /\ (if (target =? "-")%string then swapContext else switchContext target) w
               = (Ok newCtx, w1)
            /\ stderr w1 = stderr w
            /\ kubeconfig_file w1 = Some (mkKubeconfig (contexts kc) newCtx)
            /\ is_Some (contexts kc !! newCtx)).
  { revert Hrun. unfold bind at 1. unfold wrap at 1.
    destruct (target =? "-")%string.
    - destruct (swapContext_cases w) as [[e He]|(p & Hrec & Hp & Hswap)].
      + rewrite He. discriminate.
      + rewrite Hswap. destruct (switchContext p w) as [[r|e] w1] eqn:Hsw; [|discriminate].
        intros _. destruct (Hswitch p r w1 Hsw) as (-> & Hout & kc & Hk & Hin).
        exists p, w1, kc. auto 10.
    - destruct (switchContext target w) as [[r|e] w1] eqn:Hsw; [|discriminate].
      intros _. destruct (Hswitch target r w1 Hsw) as (-> & Hout & kc & Hk & Hin).
      exists target, w1, kc. auto 10. }
  destruct Hstep as (newCtx & w1 & kc & Hwhich & Hfirst & Hout & Hk1 & Hin).
  rewrite (bind_ok _ _ w newCtx w1 (wrap_ok _ _ _ _ _ Hfirst)) in Hrun.
  destruct (ns =? "")%string eqn:Ens; cbn [negb] in Hrun; cbv iota in Hrun.
  - revert Hrun. unfold wrap, printer_Success.
    destruct (print_fails (faults w1)); [discriminate|]. intros [= <-].
    exists newCtx. eexists. split; [exact Hwhich|].
    unfold activeContext. simpl. rewrite Hk1, Hout. split; [reflexivity|].
    split; [|reflexivity]. intros Hne. apply String.eqb_eq in Ens. contradiction.
  - revert Hrun. unfold with_kubeconfig.
    erewrite bind_ok; [|apply wrap_ok; unfold kc_Parse; simpl; rewrite Hk1; reflexivity].
    set (kc1 := mkKubeconfig (contexts kc) newCtx).
    unfold bind at 1. unfold wrap at 1.
    destruct (switchNamespace_cases newCtx ns false kc1 w1)
      as [(e & kc0 & He)|(cur & Hctx & Hex & [Hok|(_ & e & Herr)])].
    + rewrite He. discriminate.
    + rewrite Hok. unfold wrap, liftW, printer_Success. simpl.
      destruct (namespace_switched_saved newCtx ns cur kc1 w1) as (Hsaved & Hout2 & _).
      destruct (print_fails (faults (namespace_switched newCtx ns cur kc1 w1)));
        [discriminate|].
      simpl. intros [= <-]. exists newCtx. eexists. split; [exact Hwhich|].
      unfold activeContext, savedNamespace. simpl. rewrite Hsaved, Hout2, Hout. simpl.
      split; [reflexivity|]. split; [|reflexivity]. intros _. apply lookup_insert_eq.
    + rewrite Herr. discriminate.
Qed.

Lemma X_run_success_witness :
  exists newCtx msg,
    (if ("prod" =? "-")%string
     then previousContextRecord w_two = Some newCtx /\ newCtx <> ""
     else newCtx = "prod")
    /\ activeContext (snd (SwitchOp_Run "prod" "ns2" w_two)) = newCtx
    /\ ("ns2" <> "" -> savedNamespace newCtx (snd (SwitchOp_Run "prod" "ns2" w_two)) = Some "ns2")
    /\ stderr (snd (SwitchOp_Run "prod" "ns2" w_two)) = (stderr w_two ++ [msg])%list.
Proof.
  apply (X_run_success w_two (snd (SwitchOp_Run "prod" "ns2" w_two)) "prod" "ns2").
  vm_compute. reflexivity.
Defined.

